(** * Twitter/X retrieval client: model of [twitter_retrieval.py]

    The class [TwitterRetrieval] authenticates against the X API, issues a
    search request inside a retry loop keyed on HTTP 429, and turns the raw
    JSON answer into a list of tweet dictionaries sorted by their view
    counts.  The development below embeds that code and states the
    behaviour of the retry loop and of the response processing.

    Conventions of the embedding.
    - Values that come out of [response.json()] are Python objects built
      from JSON; they are the inductive [json].  JSON numbers with a
      fraction or exponent (Python floats) are outside the model.
    - Python exceptions are the type [exn]; code that may raise returns a
      [result].
    - Instants and durations are integers counting microseconds, the
      resolution of [datetime]; [seconds n] is [n] whole seconds.  The
      process runs in UTC, so that [datetime.fromtimestamp] and
      [datetime.now] read the same clock as [time.time].
    - The provider is a function from the number of HTTP calls already
      made and the request to a reply; each call and each [time.sleep] is
      appended to a log.  [print] is not modelled. *)

From Stdlib Require Import ZArith List String Ascii Bool Lia Permutation.
From Stdlib Require Import DecimalString Sorted.
Import ListNotations.
Set Warnings "-register-all".
Local Open Scope string_scope.
Local Open Scope list_scope.
Local Open Scope Z_scope.

(** ** Python values and exceptions *)

Inductive json : Type :=
| JNull
| JBool (b : bool)
| JInt (z : Z)
| JStr (s : string)
| JList (l : list json)
| JDict (kv : list (string * json)).

(** [requests.Response], as far as the client reads it.  [json_body] is
    what [response.json()] parses, [None] when the body is not JSON. *)
Record Response : Type := mkResponse {
  status_code : Z;
  headers : list (string * string);
  json_body : option json
}.

Inductive exn : Type :=
| HTTPError (msg : string) (response : option Response)
| RequestException (msg : string)
| JSONDecodeError
| KeyError (k : string)
| TypeError
| AttributeError
| ValueError
| OverflowError.

Inductive result (A : Type) : Type :=
| Ok (a : A)
| Raise (e : exn).
Arguments Ok {A} a.
Arguments Raise {A} e.

Definition rbind {A B} (r : result A) (k : A -> result B) : result B :=
  match r with
  | Ok a => k a
  | Raise e => Raise e
  end.

Declare Scope result_scope.
Delimit Scope result_scope with result.
Notation "x <- c ;; k" := (rbind c (fun x => k))
  (at level 61, c at next level, right associativity) : result_scope.

(** *** Strings *)

Definition str_of_Z (z : Z) : string := NilZero.string_of_int (Z.to_int z).

Fixpoint prefixb (p s : string) : bool :=
  match p, s with
  | EmptyString, _ => true
  | String a p', String b s' => Ascii.eqb a b && prefixb p' s'
  | String _ _, EmptyString => false
  end.

(** [sub in s] on strings. *)
Fixpoint substringb (sub s : string) : bool :=
  prefixb sub s ||
  match s with
  | EmptyString => false
  | String _ s' => substringb sub s'
  end.

(** [s.replace(c, by)] for a one-character pattern. *)
Fixpoint replace_char (c : ascii) (by_ : string) (s : string) : string :=
  match s with
  | EmptyString => EmptyString
  | String a s' =>
      if Ascii.eqb a c then (by_ ++ replace_char c by_ s')%string
      else String a (replace_char c by_ s')
  end.

Definition lower_ascii (c : ascii) : ascii :=
  let n := nat_of_ascii c in
  if (Nat.leb 65 n && Nat.leb n 90)%bool then ascii_of_nat (n + 32) else c.

Fixpoint lower (s : string) : string :=
  match s with
  | EmptyString => EmptyString
  | String a s' => String (lower_ascii a) (lower s')
  end.

(** *** Truth value, membership, subscripts *)

(** [bool(v)]. *)
Definition truthy (v : json) : bool :=
  match v with
  | JNull => false
  | JBool b => b
  | JInt z => negb (z =? 0)
  | JStr s => negb (String.eqb s EmptyString)
  | JList l => match l with [] => false | _ => true end
  | JDict kv => match kv with [] => false | _ => true end
  end.

Fixpoint assoc {A} (k : string) (kv : list (string * A)) : option A :=
  match kv with
  | [] => None
  | (k', v) :: rest => if String.eqb k k' then Some v else assoc k rest
  end.

Definition is_str (k : string) (v : json) : bool :=
  match v with
  | JStr s => String.eqb s k
  | _ => false
  end.

(** [k in c] for a string [k]. *)
Definition py_contains (k : string) (c : json) : result bool :=
  match c with
  | JDict kv => Ok (match assoc k kv with Some _ => true | None => false end)
  | JList l => Ok (existsb (is_str k) l)
  | JStr s => Ok (substringb k s)
  | _ => Raise TypeError
  end.

(** [c[k]] for a string [k]. *)
Definition py_getitem (c : json) (k : string) : result json :=
  match c with
  | JDict kv => match assoc k kv with Some v => Ok v | None => Raise (KeyError k) end
  | _ => Raise TypeError
  end.

(** [c.get(k, default)]: only dictionaries have the method. *)
Definition py_get (c : json) (k : string) (default : json) : result json :=
  match c with
  | JDict kv => Ok (match assoc k kv with Some v => v | None => default end)
  | _ => Raise AttributeError
  end.

(** [for x in c]: the items a loop over [c] visits. *)
Definition py_iter (c : json) : result (list json) :=
  match c with
  | JList l => Ok l
  | JDict kv => Ok (map (fun p => JStr (fst p)) kv)
  | JStr s => Ok (map (fun a => JStr (String a EmptyString)) (list_ascii_of_string s))
  | _ => Raise TypeError
  end.

(** *** Dictionary keys

    A key of a Python dictionary must be hashable; [True] and [1] are the
    same key. *)
Inductive pykey : Type :=
| KNone
| KInt (z : Z)
| KStr (s : string).

Definition pykey_eqb (a b : pykey) : bool :=
  match a, b with
  | KNone, KNone => true
  | KInt x, KInt y => x =? y
  | KStr x, KStr y => String.eqb x y
  | _, _ => false
  end.

Definition hashable (v : json) : result pykey :=
  match v with
  | JNull => Ok KNone
  | JBool b => Ok (KInt (if b then 1 else 0))
  | JInt z => Ok (KInt z)
  | JStr s => Ok (KStr s)
  | JList _ | JDict _ => Raise TypeError
  end.

Definition pydict := list (pykey * json).

Fixpoint dict_lookup (k : pykey) (d : pydict) : option json :=
  match d with
  | [] => None
  | (k', v) :: rest => if pykey_eqb k k' then Some v else dict_lookup k rest
  end.

(** [d[k] = v]: overwrite in place, or append. *)
Fixpoint dict_set (k : pykey) (v : json) (d : pydict) : pydict :=
  match d with
  | [] => [(k, v)]
  | (k', v') :: rest =>
      if pykey_eqb k k' then (k', v) :: rest else (k', v') :: dict_set k v rest
  end.

(** *** [str] and [repr]

    String literals inside a [repr] are quoted the way CPython quotes
    ASCII; bytes above 127 are copied as they are. *)
Definition hex_digit (n : nat) : ascii :=
  match String.get n "0123456789abcdef" with
  | Some c => c
  | None => "0"%char
  end.

Definition repr_char (q : ascii) (c : ascii) : string :=
  let n := nat_of_ascii c in
  if Ascii.eqb c q then String "\" (String c EmptyString)
  else if Ascii.eqb c "\" then "\\"
  else if Nat.eqb n 10 then "\n"
  else if Nat.eqb n 13 then "\r"
  else if Nat.eqb n 9 then "\t"
  else if (Nat.ltb n 32 || Nat.eqb n 127)%bool then
    String "\" (String "x" (String (hex_digit (n / 16))
                               (String (hex_digit (n mod 16)) EmptyString)))
  else String c EmptyString.

Fixpoint repr_chars (q : ascii) (s : string) : string :=
  match s with
  | EmptyString => EmptyString
  | String c s' => (repr_char q c ++ repr_chars q s')%string
  end.

Definition repr_str (s : string) : string :=
  let dq : ascii := ascii_of_nat 34 in
  let q : ascii :=
    if (substringb "'" s && negb (substringb (String dq EmptyString) s))%bool
    then dq else "'"%char in
  String q (repr_chars q s ++ String q EmptyString)%string.

Fixpoint py_repr (v : json) : string :=
  match v with
  | JNull => "None"
  | JBool b => if b then "True" else "False"
  | JInt z => str_of_Z z
  | JStr s => repr_str s
  | JList l =>
      let fix items (l : list json) : string :=
        match l with
        | [] => EmptyString
        | x :: rest =>
            match rest with
            | [] => py_repr x
            | _ :: _ => (py_repr x ++ ", " ++ items rest)%string
            end
        end in
      ("[" ++ items l ++ "]")%string
  | JDict kv =>
      let fix items (kv : list (string * json)) : string :=
        match kv with
        | [] => EmptyString
        | (k, x) :: rest =>
            match rest with
            | [] => (repr_str k ++ ": " ++ py_repr x)%string
            | _ :: _ => (repr_str k ++ ": " ++ py_repr x ++ ", " ++ items rest)%string
            end
        end in
      ("{" ++ items kv ++ "}")%string
  end.

(** [str(v)], which is what an f-string field [{v}] inserts. *)
Definition py_str (v : json) : string :=
  match v with
  | JStr s => s
  | _ => py_repr v
  end.

(** *** [int(s)] on a string

    Surrounding white space, an optional sign, decimal digits with single
    underscores between them.  Only ASCII digits and ASCII white space are
    recognised, and the cap that recent versions of CPython put on the
    number of digits is left out. *)
Definition is_space (c : ascii) : bool :=
  let n := nat_of_ascii c in
  (Nat.eqb n 32 || (Nat.leb 9 n && Nat.leb n 13))%bool.

Fixpoint lstrip (l : list ascii) : list ascii :=
  match l with
  | [] => []
  | c :: r => if is_space c then lstrip r else l
  end.

Definition strip (l : list ascii) : list ascii := rev (lstrip (rev (lstrip l))).

Definition digit_of (c : ascii) : option Z :=
  let n := nat_of_ascii c in
  if (Nat.leb 48 n && Nat.leb n 57)%bool then Some (Z.of_nat (n - 48)) else None.

Fixpoint digits_val (acc : Z) (after_digit : bool) (l : list ascii) : option Z :=
  match l with
  | [] => if after_digit then Some acc else None
  | c :: r =>
      match digit_of c with
      | Some d => digits_val (acc * 10 + d) true r
      | None =>
          if (Ascii.eqb c "_" && after_digit)%bool then digits_val acc false r else None
      end
  end.

Definition py_int (s : string) : result Z :=
  let parsed :=
    match strip (list_ascii_of_string s) with
    | c :: r =>
        if Ascii.eqb c "-" then option_map Z.opp (digits_val 0 false r)
        else if Ascii.eqb c "+" then digits_val 0 false r
        else digits_val 0 false (c :: r)
    | [] => None
    end in
  match parsed with
  | Some z => Ok z
  | None => Raise ValueError
  end.

(** *** Ordering

    [a < b] between integers (a Boolean counts as 0 or 1) and between
    strings; every other pair of values raises [TypeError].  Comparing two
    lists, which Python allows, is not modelled. *)
Definition as_int (v : json) : option Z :=
  match v with
  | JInt z => Some z
  | JBool b => Some (if b then 1 else 0)
  | _ => None
  end.

Definition py_lt (a b : json) : result bool :=
  match as_int a, as_int b with
  | Some x, Some y => Ok (x <? y)
  | _, _ =>
      match a, b with
      | JStr s, JStr t => Ok (String.ltb s t)
      | _, _ => Raise TypeError
      end
  end.

(** ** Time *)

Definition seconds (n : Z) : Z := n * 1000000.

(** [datetime.fromtimestamp(t)]: the instant, when the year lies in
    1..9999.  Outside that range Python raises [ValueError], or
    [OverflowError] when [t] does not fit the platform's 64-bit time; the
    client catches neither. *)
Definition datetime_range (t : Z) : bool :=
  ((-62135596800 <=? t) && (t <=? 253402300799))%bool.

Definition fromtimestamp (t : Z) : result Z :=
  if datetime_range t then Ok (seconds t)
  else if ((- 2 ^ 63 <=? t) && (t <? 2 ^ 63))%bool then Raise ValueError
  else Raise OverflowError.

(** ** Tweet records *)

Module Tweet.
Record t : Type := mk {
  id : json;
  text : json;
  author : json;
  username : string;
  verified : json;
  timestamp : json;
  views : json;
  likes : json;
  retweets : json;
  replies : json;
  url : string
}.
End Tweet.

Record SearchResult : Type := mkSearchResult {
  tweets : list Tweet.t;
  totalResults : Z;
  query : string
}.

(** [list.sort(key=lambda tweet: tweet['views'], reverse=True)]: a stable
    sort into descending order of the key.  An element moves right only
    past elements whose key is strictly larger. *)
Fixpoint insert_desc (x : Tweet.t) (l : list Tweet.t) : result (list Tweet.t) :=
  match l with
  | [] => Ok [x]
  | y :: r =>
      (lt <- py_lt (Tweet.views x) (Tweet.views y) ;;
       if lt then (r' <- insert_desc x r ;; Ok (y :: r')) else Ok (x :: l))%result
  end.

Fixpoint sort_by_views (l : list Tweet.t) : result (list Tweet.t) :=
  match l with
  | [] => Ok []
  | x :: r => (s <- sort_by_views r ;; insert_desc x s)%result
  end.

Fixpoint mapM {A B} (f : A -> result B) (l : list A) : result (list B) :=
  match l with
  | [] => Ok []
  | x :: r => (y <- f x ;; ys <- mapM f r ;; Ok (y :: ys))%result
  end.

Fixpoint foldM {A B} (f : B -> A -> result B) (l : list A) (acc : B) : result B :=
  match l with
  | [] => Ok acc
  | x :: r => (acc' <- f acc x ;; foldM f r acc')%result
  end.

(** ** Response processing

    [fromisoformat] stands for [datetime.fromisoformat] of the Python
    library: the instant a string denotes, [None] where it raises. *)
Section Normalizer.

Variable fromisoformat : string -> option Z.

(** [_format_timestamp], lines 265-294, read at clock [now]. *)
Definition _format_timestamp (now : Z) (timestamp_str : json) : json :=
  if negb (truthy timestamp_str) then JStr "Unknown"
  else
    match timestamp_str with
    | JStr s =>
        match fromisoformat (replace_char "Z" "+00:00" s) with
        | Some dt =>
            let diff := now - dt in
            if diff <? seconds 60 then
              JStr (str_of_Z (Z.quot diff (seconds 1)) ++ "s ago")
            else if diff <? seconds 3600 then
              JStr (str_of_Z (Z.quot diff (seconds 60)) ++ "m ago")
            else if diff <? seconds 86400 then
              JStr (str_of_Z (Z.quot diff (seconds 3600)) ++ "h ago")
            else
              JStr (str_of_Z (Z.quot diff (seconds 86400)) ++ "d ago")
        | None => timestamp_str
        end
    | _ => timestamp_str
    end.

(** The body of the loop over [data['data']], lines 242-261. *)
Definition format_tweet (now : Z) (users_dict : pydict) (tweet : json)
  : result Tweet.t :=
  (author_id <- py_get tweet "author_id" JNull ;;
   key <- hashable author_id ;;
   let author_data :=
     match dict_lookup key users_dict with
     | Some u => u
     | None => JDict []
     end in
   metrics <- py_get tweet "public_metrics" (JDict []) ;;
   id <- py_get tweet "id" JNull ;;
   text <- py_get tweet "text" JNull ;;
   author <- py_get author_data "name" (JStr "Unknown") ;;
   handle <- py_get author_data "username" (JStr "unknown") ;;
   verified <- py_get author_data "verified" (JBool false) ;;
   created_at <- py_get tweet "created_at" JNull ;;
   views <- py_get metrics "impression_count" (JInt 0) ;;
   likes <- py_get metrics "like_count" (JInt 0) ;;
   retweets <- py_get metrics "retweet_count" (JInt 0) ;;
   replies <- py_get metrics "reply_count" (JInt 0) ;;
   url_handle <- py_get author_data "username" (JStr "i") ;;
   url_id <- py_get tweet "id" JNull ;;
   Ok {| Tweet.id := id;
         Tweet.text := text;
         Tweet.author := author;
         Tweet.username := "@" ++ py_str handle;
         Tweet.verified := verified;
         Tweet.timestamp := _format_timestamp now created_at;
         Tweet.views := views;
         Tweet.likes := likes;
         Tweet.retweets := retweets;
         Tweet.replies := replies;
         Tweet.url := "https://twitter.com/" ++ py_str url_handle
                        ++ "/status/" ++ py_str url_id |})%result.

(** The body of the loop over [data['includes']['users']], line 237. *)
Definition add_user (users_dict : pydict) (user : json) : result pydict :=
  (uid <- py_getitem user "id" ;;
   key <- hashable uid ;;
   Ok (dict_set key user users_dict))%result.

(** Lines 233-237: the dictionary of the included users, keyed by id. *)
Definition build_users_dict (data : json) : result pydict :=
  (has_includes <- py_contains "includes" data ;;
   if has_includes then
     includes <- py_getitem data "includes" ;;
     has_users <- py_contains "users" includes ;;
     if has_users then
       includes <- py_getitem data "includes" ;;
       users <- py_getitem includes "users" ;;
       items <- py_iter users ;;
       foldM add_user items []
     else Ok []
   else Ok [])%result.

(** [_process_response], lines 220-263. *)
Definition _process_response (now : Z) (data : json) : result (list Tweet.t) :=
  (users_dict <- build_users_dict data ;;
   has_data <- py_contains "data" data ;;
   if has_data then
     raw <- py_getitem data "data" ;;
     items <- py_iter raw ;;
     mapM (format_tweet now users_dict) items
   else Ok [])%result.

End Normalizer.

(** ** HTTP and the outside world *)

Record Request : Type := mkRequest {
  method : string;
  url : string;
  req_headers : list (string * string);
  params : list (string * json);
  form : list (string * string)
}.

(** What [requests.get] or [requests.post] does with a request: a response
    with whatever status, or a transport failure, raised as a
    [RequestException] that is not an [HTTPError]. *)
Inductive outcome : Type :=
| Responded (r : Response)
| Failed (msg : string).

Record Reply : Type := mkReply {
  answer : outcome;
  latency : N
}.

Inductive Event : Type :=
| EHttp (r : Request)
| ESleep (d : Z).

Definition is_http (e : Event) : bool :=
  match e with EHttp _ => true | ESleep _ => false end.

Definition is_sleep (e : Event) : bool :=
  match e with EHttp _ => false | ESleep _ => true end.

Definition http_count (l : list Event) : nat := List.length (filter is_http l).

(** [response.headers.get(name)]: header names compare without case. *)
Definition headers_get (name : string) (hs : list (string * string)) : option string :=
  assoc (lower name) (map (fun p => (lower (fst p), snd p)) hs).

(** [response.raise_for_status()].  The message leaves out the reason
    phrase and the URL. *)
Definition raise_for_status (r : Response) : result unit :=
  if ((400 <=? status_code r) && (status_code r <? 500))%bool then
    Raise (HTTPError (str_of_Z (status_code r) ++ " Client Error") (Some r))
  else if ((500 <=? status_code r) && (status_code r <? 600))%bool then
    Raise (HTTPError (str_of_Z (status_code r) ++ " Server Error") (Some r))
  else Ok tt.

(** [response.json()]. *)
Definition response_json (r : Response) : result json :=
  match json_body r with
  | Some j => Ok j
  | None => Raise JSONDecodeError
  end.

(** [base64.b64encode] on the bytes of a string. *)
Definition b64_alphabet : string :=
  "ABCDEFGHIJKLMNOPQRSTUVWXYZabcdefghijklmnopqrstuvwxyz0123456789+/".

Definition b64_char (n : nat) : ascii :=
  match String.get n b64_alphabet with
  | Some c => c
  | None => "="%char
  end.

Fixpoint b64_bytes (l : list nat) : list ascii :=
  match l with
  | [] => []
  | [a] =>
      [b64_char (a / 4); b64_char ((a mod 4) * 16); "="%char; "="%char]
  | [a; b] =>
      [b64_char (a / 4); b64_char ((a mod 4) * 16 + b / 16);
       b64_char ((b mod 16) * 4); "="%char]
  | a :: b :: c :: r =>
      b64_char (a / 4) :: b64_char ((a mod 4) * 16 + b / 16)
        :: b64_char ((b mod 16) * 4 + c / 64) :: b64_char (c mod 64)
        :: b64_bytes r
  end%nat.

Definition b64encode (s : string) : string :=
  string_of_list_ascii (b64_bytes (map nat_of_ascii (list_ascii_of_string s))).

(** ** The client object and the state of a run *)

Record Client : Type := mkClient {
  api_key : string;
  api_secret : string;
  bearer_token : json;
  rate_limit_wait : Z;
  last_request_time : option Z;
  min_request_interval : Z
}.

Record State : Type := mkState {
  self : Client;
  clock : Z;
  log : list Event
}.

Definition set_bearer_token (tok : json) (st : State) : State :=
  {| self := {| api_key := api_key (self st);
                api_secret := api_secret (self st);
                bearer_token := tok;
                rate_limit_wait := rate_limit_wait (self st);
                last_request_time := last_request_time (self st);
                min_request_interval := min_request_interval (self st) |};
     clock := clock st;
     log := log st |}.

Definition set_last_request_time (t : Z) (st : State) : State :=
  {| self := {| api_key := api_key (self st);
                api_secret := api_secret (self st);
                bearer_token := bearer_token (self st);
                rate_limit_wait := rate_limit_wait (self st);
                last_request_time := Some t;
                min_request_interval := min_request_interval (self st) |};
     clock := clock st;
     log := log st |}.

(** [__init__], lines 25-40; the two arguments are what [os.getenv]
    returns for [X_API_KEY] and [X_API_SECRET]. *)
Definition __init__ (key secret : option string) (rate_limit_wait : Z)
  : result Client :=
  let present (v : option string) :=
    match v with
    | Some s => negb (String.eqb s EmptyString)
    | None => false
    end in
  match key, secret with
  | Some k, Some s =>
      if (present key && present secret)%bool then
        Ok {| api_key := k; api_secret := s; bearer_token := JNull;
              rate_limit_wait := rate_limit_wait;
              last_request_time := None;
              min_request_interval := seconds 1 |}
      else Raise ValueError
  | _, _ => Raise ValueError
  end.

(** Computations that read and change the state and may raise; the state
    reached when an exception is raised is kept. *)
Definition M (A : Type) : Type := State -> result A * State.

Definition mret {A} (a : A) : M A := fun st => (Ok a, st).

Definition mraise {A} (e : exn) : M A := fun st => (Raise e, st).

Definition mbind {A B} (c : M A) (k : A -> M B) : M B :=
  fun st =>
    match c st with
    | (Ok a, st') => k a st'
    | (Raise e, st') => (Raise e, st')
    end.

Definition lift {A} (r : result A) : M A := fun st => (r, st).

Definition get_state : M State := fun st => (Ok st, st).

Declare Scope M_scope.
Delimit Scope M_scope with M.
Notation "x <- c ;; k" := (mbind c (fun x => k))
  (at level 61, c at next level, right associativity) : M_scope.
Notation "c ;;; k" := (mbind c (fun _ => k))
  (at level 61, right associativity) : M_scope.

(** [time.sleep(d)]: a negative duration raises [ValueError].  The call
    is logged in both cases. *)
Definition sleep (d : Z) : M unit :=
  fun st =>
    if d <? 0 then
      (Raise ValueError,
       {| self := self st; clock := clock st; log := log st ++ [ESleep d] |})
    else
      (Ok tt,
       {| self := self st; clock := clock st + d; log := log st ++ [ESleep d] |}).

(** ** The methods of [TwitterRetrieval] *)

Section TwitterRetrieval.

(** The provider: the reply to the [n]-th HTTP call of the run (counting
    from 0), given the request. *)
Variable provider : nat -> Request -> Reply.
Variable fromisoformat : string -> option Z.

(** [requests.get] and [requests.post]: the call is logged and takes the
    time the provider takes to reply. *)
Definition after_send (req : Request) (st : State) : State :=
  {| self := self st;
     clock := clock st + Z.of_N (latency (provider (http_count (log st)) req));
     log := log st ++ [EHttp req] |}.

Definition send (req : Request) : M Response :=
  fun st =>
    match answer (provider (http_count (log st)) req) with
    | Responded r => (Ok r, after_send req st)
    | Failed msg => (Raise (RequestException msg), after_send req st)
    end.

Definition token_request (key secret : string) : Request :=
  {| method := "POST";
     url := "https://api.twitter.com/oauth2/token";
     req_headers :=
       [("Authorization", ("Basic " ++ b64encode (key ++ ":" ++ secret))%string);
        ("Content-Type", "application/x-www-form-urlencoded;charset=UTF-8")];
     params := [];
     form := [("grant_type", "client_credentials")] |}.

(** [get_bearer_token], lines 42-75.  Every exception is raised again by
    the handler. *)
Definition get_bearer_token : M json :=
  (st <- get_state ;;
   response <- send (token_request (api_key (self st)) (api_secret (self st))) ;;
   lift (raise_for_status response) ;;;
   token_data <- lift (response_json response) ;;
   token <- lift (py_get token_data "access_token" JNull) ;;
   (fun st => (Ok token, set_bearer_token token st)))%M.

(** Lines 137-143. *)
Definition search_params (query : string) (max_results : Z)
  : list (string * json) :=
  [("query", JStr query);
   ("max_results", JInt (Z.min (Z.max max_results 10) 100));
   ("tweet.fields", JStr "created_at,public_metrics,author_id");
   ("user.fields", JStr "name,username,verified");
   ("expansions", JStr "author_id")].

(** Lines 130-143. *)
Definition search_request (token : json) (query : string) (max_results : Z)
  : Request :=
  {| method := "GET";
     url := "https://api.twitter.com/2/tweets/search/recent";
     req_headers := [("Authorization", ("Bearer " ++ py_str token)%string)];
     params := search_params query max_results;
     form := [] |}.

(** Lines 161-168: the duration to wait after a 429, read at clock [now]. *)
Definition wait_seconds (rate_limit_wait : Z) (response : Response)
    (retry_count : Z) (now : Z) : result Z :=
  match headers_get "x-rate-limit-reset" (headers response) with
  | Some reset_time =>
      if String.eqb reset_time EmptyString then
        Ok (seconds (rate_limit_wait * retry_count))
      else
        (r <- py_int reset_time ;;
         wait_until <- fromtimestamp r ;;
         Ok (Z.max (wait_until - now) (seconds rate_limit_wait)))%result
  | None => Ok (seconds (rate_limit_wait * retry_count))
  end.

(** Lines 176-198: from the parsed body to the value returned. *)
Definition build_result (now : Z) (q : string) (data : json)
  : result SearchResult :=
  (has_data <- py_contains "data" data ;;
   no_tweets <-
     (if negb has_data then Ok true
      else d <- py_getitem data "data" ;; Ok (negb (truthy d))) ;;
   if (no_tweets : bool) then
     Ok {| tweets := []; totalResults := 0; query := q |}
   else
     processed_tweets <- _process_response fromisoformat now data ;;
     sorted <- sort_by_views processed_tweets ;;
     Ok {| tweets := sorted;
           totalResults := Z.of_nat (List.length sorted);
           query := q |})%result.

(** How one pass through the body of the [while] ends when it does not
    raise: [continue], or [return]. *)
Inductive step : Type :=
| Continue
| Return (r : SearchResult).

(** Lines 174-198, for a response whose status is not 429. *)
Definition handle_response (now : Z) (q : string) (response : Response)
  : result step :=
  (_ <- raise_for_status response ;;
   data <- response_json response ;;
   r <- build_result now q data ;;
   Ok (Return r))%result.

(** Lines 148-198, the [try] block.  The local [retry_count] is returned
    next to the state, since the block changes it before it raises. *)
Definition attempt_try (q : string) (max_retries : Z) (req : Request)
    (retry_count : Z) (st : State) : result step * Z * State :=
  match send req st with
  | (Raise e, st1) => (Raise e, retry_count, st1)
  | (Ok response, st1) =>
      let st2 := set_last_request_time (clock st1) st1 in
      if status_code response =? 429 then
        let retry_count := retry_count + 1 in
        if retry_count >? max_retries then
          (Raise (HTTPError
                    ("429 Client Error: Rate limit exceeded after "
                       ++ str_of_Z max_retries ++ " retries")%string
                    (Some response)),
           retry_count, st2)
        else
          match wait_seconds (rate_limit_wait (self st2)) response
                  retry_count (clock st2) with
          | Raise e => (Raise e, retry_count, st2)
          | Ok w =>
              match sleep w st2 with
              | (Ok _, st3) => (Ok Continue, retry_count, st3)
              | (Raise e, st3) => (Raise e, retry_count, st3)
              end
          end
      else
        (handle_response (clock st2) q response, retry_count, st2)
  end.

(** Lines 147-215: the [try] block under its two handlers.  An
    [HTTPError] whose response has status 429 makes the loop continue;
    any other [HTTPError] or [RequestException] is raised again; other
    exceptions are not caught. *)
Definition attempt (q : string) (max_retries : Z) (req : Request)
    (retry_count : Z) (st : State) : result step * Z * State :=
  match attempt_try q max_retries req retry_count st with
  | (Raise (HTTPError msg (Some response)), rc, st') =>
      if status_code response =? 429 then (Ok Continue, rc, st')
      else (Raise (HTTPError msg (Some response)), rc, st')
  | (Raise (HTTPError msg None), rc, st') => (Raise AttributeError, rc, st')
  | other => other
  end.

(** Lines 145-218: the [while] loop and the [raise] after it.  [None]
    stands for a loop still running when [fuel] passes are used up. *)
Fixpoint search_loop (fuel : nat) (q : string) (max_retries : Z)
    (req : Request) (retry_count : Z) (st : State)
  : option (result SearchResult * State) :=
  if retry_count <=? max_retries then
    match fuel with
    | O => None
    | S fuel' =>
        match attempt q max_retries req retry_count st with
        | (Ok Continue, rc, st') => search_loop fuel' q max_retries req rc st'
        | (Ok (Return r), _, st') => Some (Ok r, st')
        | (Raise e, _, st') => Some (Raise e, st')
        end
    end
  else
    Some (Raise (HTTPError
                   ("Failed after " ++ str_of_Z max_retries
                      ++ " retries due to rate limiting")%string
                   None),
          st).

(** Lines 117-119: fetch a token unless a truthy one is stored. *)
Definition ensure_token : M unit :=
  (st <- get_state ;;
   if negb (truthy (bearer_token (self st))) then
     (_ <- get_bearer_token ;; mret tt)
   else mret tt)%M.

(** Lines 121-127: spacing between two searches. *)
Definition throttle : M unit :=
  (st <- get_state ;;
   match last_request_time (self st) with
   | Some t =>
       if t =? 0 then mret tt
       else
         let elapsed := clock st - t in
         if elapsed <? min_request_interval (self st) then
           sleep (min_request_interval (self st) - elapsed)
         else mret tt
   | None => mret tt
   end)%M.

(** [search_tweets], lines 104-218.  A pass through the loop either ends
    the call or adds one to [retry_count], so [max_retries + 1] passes
    are enough. *)
Definition search_tweets (q : string) (max_results : Z) (max_retries : Z)
    (st : State) : option (result SearchResult * State) :=
  match (ensure_token ;;; throttle)%M st with
  | (Raise e, st1) => Some (Raise e, st1)
  | (Ok _, st1) =>
      search_loop (Z.to_nat (max_retries + 1)) q max_retries
        (search_request (bearer_token (self st1)) q max_results) 0 st1
  end.





End TwitterRetrieval.

(** ** Vocabulary of the statements *)


(** The two values are the same value. *)
Fixpoint json_eqb (a b : json) : bool :=
  match a, b with
  | JNull, JNull => true
  | JBool x, JBool y => Bool.eqb x y
  | JInt x, JInt y => x =? y
  | JStr x, JStr y => String.eqb x y
  | JList x, JList y =>
      (fix go (x y : list json) : bool :=
         match x, y with
         | [], [] => true
         | a :: x', b :: y' => json_eqb a b && go x' y'
         | _, _ => false
         end) x y
  | JDict x, JDict y =>
      (fix go (x y : list (string * json)) : bool :=
         match x, y with
         | [], [] => true
         | (k, a) :: x', (k', b) :: y' =>
             String.eqb k k' && json_eqb a b && go x' y'
         | _, _ => false
         end) x y
  | _, _ => false
  end.

(** Two view counts are equal: as numbers when both are numbers, as
    values otherwise. *)
Definition views_eqb (a b : json) : bool :=
  match as_int a, as_int b with
  | Some x, Some y => x =? y
  | None, None => json_eqb a b
  | _, _ => false
  end.



Definition is_dict (v : json) : bool :=
  match v with JDict _ => true | _ => false end.

(** The entry [k] of an object, if [v] is an object that has one. *)
Definition field (k : string) (v : json) : option json :=
  match v with
  | JDict kv => assoc k kv
  | _ => None
  end.

(** The raw tweets and the raw user records of a payload, and a count of
    a raw tweet. *)
Definition raw_tweets (data : json) : list json :=
  match field "data" data with
  | Some (JList l) => l
  | _ => []
  end.

Definition raw_users (data : json) : list json :=
  match field "includes" data with
  | Some includes =>
      match field "users" includes with
      | Some (JList l) => l
      | _ => []
      end
  | None => []
  end.

Definition metric (k : string) (tweet : json) : option json :=
  match field "public_metrics" tweet with
  | Some m => field k m
  | None => None
  end.

Definition or_default (d : json) (v : option json) : json :=
  match v with
  | Some j => j
  | None => d
  end.

Definition or_null (v : option json) : json := or_default JNull v.

Definition dict_values_are_dicts (d : pydict) : Prop :=
  Forall (fun e => is_dict (snd e) = true) d.

(** The user record is the author of the tweet: its [id] and the tweet's
    [author_id] are the same dictionary key. *)
Definition author_matches (tweet user : json) : bool :=
  match hashable (or_null (field "author_id" tweet)), field "id" user with
  | Ok a, Some uid =>
      match hashable uid with
      | Ok b => pykey_eqb a b
      | Raise _ => false
      end
  | _, _ => false
  end.

(** The shape of a provider payload: the raw tweets are objects whose
    [author_id] can be a key and whose [public_metrics], when present, is
    an object; the included users are objects with an [id] that can be a
    key. *)
Definition is_key (v : json) : bool :=
  match v with JList _ | JDict _ => false | _ => true end.

Definition user_shaped (u : json) : bool :=
  is_dict u && match field "id" u with Some i => is_key i | None => false end.

Definition tweet_shaped (t : json) : bool :=
  is_dict t
  && is_key (or_null (field "author_id" t))
  && match field "public_metrics" t with Some m => is_dict m | None => true end.

Definition payload_shaped (data : json) : bool :=
  is_dict data
  && match field "includes" data with
     | Some includes =>
         is_dict includes
         && match field "users" includes with
            | Some (JList us) => forallb user_shaped us
            | Some _ => false
            | None => true
            end
     | None => true
     end
  && match field "data" data with
     | Some (JList ts) => forallb tweet_shaped ts
     | Some _ => false
     | None => true
     end.


(** The error that ends a call whose every attempt was answered 429
    (line 218). *)
Definition RateLimitExceeded (max_retries : Z) : exn :=
  HTTPError
    ("Failed after " ++ str_of_Z max_retries ++ " retries due to rate limiting")
    None.

(** The client object carries the same settings and the same token. *)
Definition same_config (st st' : State) : Prop :=
  api_key (self st') = api_key (self st) /\
  api_secret (self st') = api_secret (self st) /\
  bearer_token (self st') = bearer_token (self st) /\
  rate_limit_wait (self st') = rate_limit_wait (self st) /\
  min_request_interval (self st') = min_request_interval (self st).

(** The event is a search request or a sleep; the event is a request
    with method GET or a sleep. *)
Definition search_or_sleep (req : Request) (e : Event) : Prop :=
  e = EHttp req \/ is_sleep e = true.

Definition get_or_sleep (e : Event) : Prop :=
  match e with
  | EHttp r => method r = "GET"
  | ESleep _ => True
  end.

(** The state after a request was answered and line 150 has recorded the
    time; the state after the sleep of line 171. *)
Definition stamped (provider : nat -> Request -> Reply) (req : Request)
    (st : State) : State :=
  set_last_request_time (clock (after_send provider req st))
    (after_send provider req st).

Definition slept (d : Z) (st : State) : State := snd (sleep d st).

(** The token request of a call that finds no truthy token stored. *)
Definition token_events (st : State) : list Event :=
  if truthy (bearer_token (self st)) then []
  else [EHttp (token_request (api_key (self st)) (api_secret (self st)))].

(** The computation does not end in an [HTTPError]. *)
Definition not_http {A} (r : result A) : Prop :=
  match r with
  | Raise (HTTPError _ _) => False
  | _ => True
  end.

(** ** Sample clients, providers and payloads *)

Definition no_iso : string -> option Z := fun _ => None.

Definition sample_client : Client :=
  {| api_key := "key"; api_secret := "secret";
     bearer_token := JStr "token";
     rate_limit_wait := 60;
     last_request_time := None;
     min_request_interval := seconds 1 |}.

Definition sample_state : State :=
  {| self := sample_client; clock := seconds 1700000000; log := [] |}.

(** A client straight out of [__init__], with no token yet. *)
Definition fresh_state : State :=
  {| self := {| api_key := "key"; api_secret := "secret";
                bearer_token := JNull;
                rate_limit_wait := 60;
                last_request_time := None;
                min_request_interval := seconds 1 |};
     clock := seconds 1700000000;
     log := [] |}.

Definition limited : Response :=
  {| status_code := 429; headers := []; json_body := None |}.


Definition ok_response (data : json) : Response :=
  {| status_code := 200; headers := []; json_body := Some data |}.

Definition no_tweets : json :=
  JDict [("data", JList []); ("meta", JDict [("result_count", JInt 0)])].

Definition reply_with (r : Response) : Reply :=
  {| answer := Responded r; latency := 0 |}.

Definition always_limited : nat -> Request -> Reply :=
  fun _ _ => reply_with limited.


Definition limited_once : nat -> Request -> Reply :=
  fun n _ =>
    match n with
    | O => reply_with limited
    | S _ => reply_with (ok_response no_tweets)
    end.

Definition never_limited (data : json) : nat -> Request -> Reply :=
  fun _ _ => reply_with (ok_response data).

Definition token_provider : nat -> Request -> Reply :=
  fun _ req =>
    if String.eqb (method req) "POST"
    then reply_with (ok_response (JDict [("token_type", JStr "bearer");
                                         ("access_token", JStr "abc")]))
    else reply_with (ok_response no_tweets).


Definition sample_payload : json :=
  JDict
    [("data",
      JList
        [JDict [("id", JStr "1"); ("text", JStr "first");
                ("author_id", JStr "u1");
                ("public_metrics", JDict [("impression_count", JInt 50);
                                          ("like_count", JInt 2)])];
         JDict [("id", JStr "2"); ("text", JStr "second");
                ("author_id", JStr "u9");
                ("public_metrics", JDict [("impression_count", JInt 200)])];
         JDict [("id", JStr "3"); ("text", JStr "third");
                ("author_id", JStr "u9");
                ("public_metrics", JDict [("like_count", JInt 7)])];
         JDict [("id", JStr "4"); ("text", JStr "fourth");
                ("author_id", JStr "u1");
                ("public_metrics", JDict [("impression_count", JInt 50)])]]);
     ("includes",
      JDict
        [("users",
          JList [JDict [("id", JStr "u1"); ("name", JStr "Ann");
                        ("username", JStr "ann");
                        ("verified", JBool true)]])])].

Definition payload_user_without_id : json :=
  JDict
    [("data", JList [JDict [("id", JStr "1"); ("author_id", JStr "u1")]]);
     ("includes",
      JDict [("users", JList [JDict [("name", JStr "Ann");
                                     ("username", JStr "ann")]])])].

Definition payload_null_metrics : json :=
  JDict [("data", JList [JDict [("id", JStr "1");
                                ("public_metrics", JNull)]])].

Definition payload_negative_views : json :=
  JDict [("data",
          JList [JDict [("id", JStr "1");
                        ("public_metrics",
                         JDict [("impression_count", JInt (-5))])]])].

(** The impression count of a raw tweet, when there is one, is an integer
    that is not negative. *)
Definition impressions_nonneg (tweet : json) : bool :=
  match metric "impression_count" tweet with
  | Some (JInt n) => 0 <=? n
  | Some _ => false
  | None => true
  end.

Create HintDb not_http.

(** ** The interactive front end *)








Section FrontEnd.

Variable provider : nat -> Request -> Reply.
Variable fromisoformat : string -> option Z.


End FrontEnd.

(** ** Further vocabulary *)

Definition sleep_count (l : list Event) : nat := List.length (filter is_sleep l).


(** The status is one that [raise_for_status] turns into an [HTTPError]. *)
Definition error_status (code : Z) : bool := ((400 <=? code) && (code <? 600))%bool.

(** The user record that the author of a tweet resolves to: the last one
    in the list that matches. *)
Definition resolved_author (tweet : json) (users : list json) : option json :=
  find (author_matches tweet) (rev users).


(** ** Further samples *)

Definition unreachable : nat -> Request -> Reply :=
  fun _ _ => {| answer := Failed "connection refused"; latency := 0 |}.

Definition forbidden : Response :=
  {| status_code := 403; headers := []; json_body := Some (JDict []) |}.

Definition always_forbidden : nat -> Request -> Reply :=
  fun _ _ => reply_with forbidden.


(** The token endpoint answers with a body that has no [access_token]. *)
Definition tokenless_provider : nat -> Request -> Reply :=
  fun _ req =>
    if String.eqb (method req) "POST"
    then reply_with (ok_response (JDict [("token_type", JStr "bearer")]))
    else reply_with (ok_response sample_payload).


(** A client whose last request was answered 400 milliseconds ago. *)
Definition recent_state : State :=
  {| self := {| api_key := "key"; api_secret := "secret";
                bearer_token := JStr "token";
                rate_limit_wait := 60;
                last_request_time := Some (seconds 1700000000 - 400000);
                min_request_interval := seconds 1 |};
     clock := seconds 1700000000;
     log := [] |}.


Definition payload_two_anns : json :=
  JDict
    [("data", JList [JDict [("id", JStr "1"); ("author_id", JStr "u1")]]);
     ("includes",
      JDict
        [("users",
          JList [JDict [("id", JStr "u1"); ("name", JStr "Ann");
                        ("username", JStr "ann")];
                 JDict [("id", JStr "u2"); ("name", JStr "Bob")];
                 JDict [("id", JStr "u1"); ("name", JStr "Ann Lee")]])])].

Definition rate_headers : Response :=
  {| status_code := 200;
     headers := [("x-rate-limit-limit", "180");
                 ("x-rate-limit-remaining", "179");
                 ("x-rate-limit-reset", "soon")];
     json_body := Some no_tweets |}.

(** * Properties *)

(** ** Ordering of view counts *)

Lemma string_ltb_irrefl (s : string) : String.ltb s s = false.
Proof.
  unfold String.ltb.
  destruct (String.compare s s) eqn:E; try reflexivity.
  pose proof (String.compare_antisym s s) as H.
  rewrite E in H. discriminate H.
Qed.


Lemma py_lt_irrefl (a : json) : py_lt a a <> Ok true.
Proof.
  unfold py_lt. destruct (as_int a) as [x|].
  - rewrite Z.ltb_irrefl. discriminate.
  - destruct a; try discriminate. rewrite string_ltb_irrefl. discriminate.
Qed.



(** ** The sort of the processed tweets *)

Lemma insert_desc_perm (x : Tweet.t) (l l' : list Tweet.t) :
  insert_desc x l = Ok l' -> Permutation (x :: l) l'.
Proof.
  revert l'. induction l as [|y r IH]; simpl; intros l' H.
  - injection H as <-. apply Permutation_refl.
  - destruct (py_lt (Tweet.views x) (Tweet.views y)) as [[|]|] eqn:E;
      simpl in H; try discriminate.
    + destruct (insert_desc x r) as [r'|] eqn:Er; simpl in H; try discriminate.
      injection H as <-.
      apply perm_trans with (y :: x :: r); [apply perm_swap|].
      apply perm_skip. now apply IH.
    + injection H as <-. apply Permutation_refl.
Qed.

Lemma sort_by_views_perm (l l' : list Tweet.t) :
  sort_by_views l = Ok l' -> Permutation l l'.
Proof.
  revert l'. induction l as [|x r IH]; simpl; intros l' H.
  - injection H as <-. apply perm_nil.
  - destruct (sort_by_views r) as [s|] eqn:Es; simpl in H; try discriminate.
    apply perm_trans with (x :: s).
    + apply perm_skip. now apply IH.
    + now apply insert_desc_perm.
Qed.





(** Stability: a family of tweets none of which is strictly below another
    keeps its order. *)
Section Stability.

Variable p : Tweet.t -> bool.
Hypothesis p_tied : forall a b : Tweet.t,
  p a = true -> p b = true -> py_lt (Tweet.views a) (Tweet.views b) <> Ok true.



End Stability.

(** ** Equality of values *)

Lemma json_nested_ind (P : json -> Prop) :
  P JNull ->
  (forall b, P (JBool b)) ->
  (forall z, P (JInt z)) ->
  (forall s, P (JStr s)) ->
  (forall l, Forall P l -> P (JList l)) ->
  (forall kv, Forall (fun e => P (snd e)) kv -> P (JDict kv)) ->
  forall j, P j.
Proof.
  intros Hn Hb Hi Hs Hl Hd.
  fix IH 1. intros [ | b | z | s | l | kv ].
  - exact Hn.
  - apply Hb.
  - apply Hi.
  - apply Hs.
  - apply Hl. induction l as [|x l IHl]; constructor; [apply IH | exact IHl].
  - apply Hd. induction kv as [|[k x] kv IHkv]; constructor;
      [apply IH | exact IHkv].
Qed.


Lemma json_eqb_refl (a : json) : json_eqb a a = true.
Proof.
  induction a as [ | x | x | x | l IHl | kv IHkv ] using json_nested_ind; simpl.
  - reflexivity.
  - now destruct x.
  - apply Z.eqb_refl.
  - apply String.eqb_refl.
  - induction IHl as [|a l Ha _ IH]; [reflexivity|]. now rewrite Ha, IH.
  - induction IHkv as [|[k a] kv Ha _ IH]; [reflexivity|].
    simpl in Ha. now rewrite String.eqb_refl, Ha, IH.
Qed.

Lemma views_eqb_refl (a : json) : views_eqb a a = true.
Proof.
  unfold views_eqb. destruct (as_int a); [apply Z.eqb_refl | apply json_eqb_refl].
Qed.


(** ** The users dictionary *)

Lemma pykey_eqb_eq (a b : pykey) : pykey_eqb a b = true <-> a = b.
Proof.
  destruct a, b; simpl; split; intros H; try discriminate; try reflexivity.
  - apply Z.eqb_eq in H. now subst.
  - injection H as ->. apply Z.eqb_refl.
  - apply String.eqb_eq in H. now subst.
  - injection H as ->. apply String.eqb_refl.
Qed.

Lemma dict_lookup_set (k k' : pykey) (v : json) (d : pydict) :
  dict_lookup k (dict_set k' v d)
  = if pykey_eqb k k' then Some v else dict_lookup k d.
Proof.
  induction d as [|[k2 v2] d IH]; simpl.
  - reflexivity.
  - destruct (pykey_eqb k' k2) eqn:E2; simpl.
    + apply pykey_eqb_eq in E2. subst k2.
      now destruct (pykey_eqb k k').
    + rewrite IH. destruct (pykey_eqb k k2) eqn:E, (pykey_eqb k k') eqn:E';
        try reflexivity.
      apply pykey_eqb_eq in E, E'. subst.
      rewrite (proj2 (pykey_eqb_eq _ _) eq_refl) in E2. discriminate E2.
Qed.

Lemma dict_set_values (k : pykey) (v : json) (d : pydict) :
  is_dict v = true -> dict_values_are_dicts d ->
  dict_values_are_dicts (dict_set k v d).
Proof.
  unfold dict_values_are_dicts. intros Hv Hd.
  induction Hd as [|[k2 v2] d H2 Hd IH]; simpl.
  - now repeat constructor.
  - destruct (pykey_eqb k k2); constructor; auto.
Qed.

Lemma dict_lookup_values (k : pykey) (d : pydict) (u : json) :
  dict_values_are_dicts d -> dict_lookup k d = Some u -> is_dict u = true.
Proof.
  unfold dict_values_are_dicts. intros Hd.
  induction Hd as [|[k2 v2] d H2 Hd IH]; simpl; [discriminate|].
  destruct (pykey_eqb k k2); [|exact IH].
  intros H. injection H as <-. exact H2.
Qed.

Lemma add_user_inv (acc d : pydict) (user : json) :
  add_user acc user = Ok d ->
  exists (kv : list (string * json)) (uid : json) (key : pykey),
    user = JDict kv /\ assoc "id" kv = Some uid /\ hashable uid = Ok key /\
    d = dict_set key user acc.
Proof.
  unfold add_user. destruct user as [ | | | | | kv]; simpl; try discriminate.
  destruct (assoc "id" kv) as [uid|] eqn:E; simpl; try discriminate.
  destruct (hashable uid) as [key|] eqn:Ek; simpl; try discriminate.
  intros H. injection H as <-. now exists kv, uid, key.
Qed.

(** A tweet that no listed user matches finds no entry in the dictionary
    built from the list. *)
Lemma users_dict_no_match (tweet : json) (key : pykey) (users : list json) :
  hashable (or_null (field "author_id" tweet)) = Ok key ->
  existsb (author_matches tweet) users = false ->
  forall acc d : pydict,
    foldM add_user users acc = Ok d ->
    dict_lookup key acc = None -> dict_lookup key d = None.
Proof.
  intros Hk. induction users as [|u users IH]; simpl; intros Hno acc d Hd Hacc.
  - now injection Hd as <-.
  - apply orb_false_elim in Hno as [Hu Hrest].
    destruct (add_user acc u) as [acc'|] eqn:Eu; simpl in Hd; try discriminate.
    apply (IH Hrest acc' d Hd).
    apply add_user_inv in Eu as (kv & uid & ku & -> & Hid & Hku & ->).
    rewrite dict_lookup_set.
    unfold author_matches in Hu. rewrite Hk in Hu. simpl in Hu.
    rewrite Hid, Hku in Hu. now rewrite Hu.
Qed.

Lemma users_dict_values (users : list json) :
  forall acc d : pydict,
    foldM add_user users acc = Ok d ->
    dict_values_are_dicts acc -> dict_values_are_dicts d.
Proof.
  induction users as [|u users IH]; simpl; intros acc d Hd Hacc.
  - now injection Hd as <-.
  - destruct (add_user acc u) as [acc'|] eqn:Eu; simpl in Hd; try discriminate.
    apply (IH acc' d Hd).
    apply add_user_inv in Eu as (kv & uid & ku & -> & Hid & Hku & ->).
    now apply dict_set_values.
Qed.

Lemma users_dict_shaped (users : list json) :
  forallb user_shaped users = true ->
  forall acc : pydict, exists d : pydict, foldM add_user users acc = Ok d.
Proof.
  induction users as [|u users IH]; simpl; intros Hs acc.
  - now exists acc.
  - apply andb_prop in Hs as [Hu Hs].
    unfold user_shaped in Hu. apply andb_prop in Hu as [Hd Hi].
    destruct u as [ | | | | | kv]; try discriminate. simpl in Hi.
    unfold add_user. simpl.
    destruct (assoc "id" kv) as [uid|]; try discriminate. simpl.
    destruct uid; try discriminate; simpl; apply (IH Hs).
Qed.

Lemma foldM_add_user_not_dict (items : list json) (acc d : pydict) :
  Forall (fun x => is_dict x = false) items ->
  foldM add_user items acc = Ok d -> items = [].
Proof.
  intros [|x rest Hx _]; [reflexivity|]. simpl.
  destruct x; try discriminate Hx; simpl; discriminate.
Qed.

Lemma keys_not_dict {A} (f : A -> string) (l : list A) :
  Forall (fun x => is_dict x = false) (map (fun a => JStr (f a)) l).
Proof. induction l; constructor; auto. Qed.

Lemma build_users_dict_spec (data : json) (d : pydict) :
  build_users_dict data = Ok d -> foldM add_user (raw_users data) [] = Ok d.
Proof.
  unfold build_users_dict, raw_users.
  destruct data as [ | | | s | l | kv]; simpl; try discriminate.
  - destruct (substringb "includes" s); simpl; [discriminate|tauto].
  - destruct (existsb (is_str "includes") l); simpl; [discriminate|tauto].
  - destruct (assoc "includes" kv) as [inc|] eqn:Ei; simpl; [|tauto].
    destruct inc as [ | | | s | l | ikv]; simpl; try discriminate.
    + destruct (substringb "users" s); simpl; [discriminate|tauto].
    + destruct (existsb (is_str "users") l); simpl; [discriminate|tauto].
    + destruct (assoc "users" ikv) as [us|] eqn:Eu; simpl; [|tauto].
      destruct us as [ | | | s | l | ukv]; simpl; try discriminate.
      * intros H. pose proof H as H'.
        apply foldM_add_user_not_dict in H';
          [|apply (keys_not_dict (fun a => String a EmptyString))].
        rewrite H' in H. exact H.
      * tauto.
      * intros H. pose proof H as H'.
        apply foldM_add_user_not_dict in H'; [|apply (keys_not_dict fst)].
        rewrite H' in H. exact H.
Qed.

(** ** One tweet *)

Lemma mapM_Forall2 {A B} (f : A -> result B) (l : list A) (ys : list B) :
  mapM f l = Ok ys <-> Forall2 (fun x y => f x = Ok y) l ys.
Proof.
  revert ys. induction l as [|x l IH]; simpl; intros ys; split; intros H.
  - injection H as <-. constructor.
  - now inversion H.
  - destruct (f x) as [y|] eqn:Ex; simpl in H; try discriminate.
    destruct (mapM f l) as [ys'|] eqn:El; simpl in H; try discriminate.
    injection H as <-. constructor; [exact Ex | now apply IH].
  - inversion H as [|? y ? ys' Hx Hl]; subst.
    rewrite Hx. simpl. apply IH in Hl. now rewrite Hl.
Qed.

Lemma mapM_not_dict iso now ud (items : list json) (recs : list Tweet.t) :
  Forall (fun x => is_dict x = false) items ->
  mapM (format_tweet iso now ud) items = Ok recs -> items = [] /\ recs = [].
Proof.
  intros [|x rest Hx _]; simpl.
  - intros H. now injection H as <-.
  - destruct x; try discriminate Hx; simpl; discriminate.
Qed.

(** What [format_tweet] returns, field by field. *)
Lemma format_tweet_inv iso now (ud : pydict) (tweet : json) (rec : Tweet.t) :
  format_tweet iso now ud tweet = Ok rec ->
  exists (key : pykey) (akv : list (string * json)),
    is_dict tweet = true /\
    hashable (or_null (field "author_id" tweet)) = Ok key /\
    or_default (JDict []) (dict_lookup key ud) = JDict akv /\
    rec =
      {| Tweet.id := or_null (field "id" tweet);
         Tweet.text := or_null (field "text" tweet);
         Tweet.author := or_default (JStr "Unknown") (assoc "name" akv);
         Tweet.username :=
           "@" ++ py_str (or_default (JStr "unknown") (assoc "username" akv));
         Tweet.verified := or_default (JBool false) (assoc "verified" akv);
         Tweet.timestamp :=
           _format_timestamp iso now (or_null (field "created_at" tweet));
         Tweet.views := or_default (JInt 0) (metric "impression_count" tweet);
         Tweet.likes := or_default (JInt 0) (metric "like_count" tweet);
         Tweet.retweets := or_default (JInt 0) (metric "retweet_count" tweet);
         Tweet.replies := or_default (JInt 0) (metric "reply_count" tweet);
         Tweet.url :=
           "https://twitter.com/"
             ++ py_str (or_default (JStr "i") (assoc "username" akv))
             ++ "/status/" ++ py_str (or_null (field "id" tweet)) |}.
Proof.
  unfold format_tweet.
  destruct tweet as [ | | | | | tkv]; simpl; try discriminate.
  fold (or_default JNull (assoc "author_id" tkv)).
  destruct (hashable (or_default JNull (assoc "author_id" tkv))) as [key|] eqn:Ek;
    simpl; try discriminate.
  fold (or_default (JDict []) (dict_lookup key ud)).
  fold (or_default (JDict []) (assoc "public_metrics" tkv)).
  destruct (or_default (JDict []) (dict_lookup key ud))
    as [ | | | | | akv] eqn:Ea; simpl;
    destruct (or_default (JDict []) (assoc "public_metrics" tkv))
      as [ | | | | | mkv] eqn:Em; simpl; try discriminate.
  intros H. injection H as <-.
  exists key, akv.
  split; [reflexivity|]. split; [exact Ek|]. split; [exact Ea|].
  unfold metric, field, or_null.
  destruct (assoc "public_metrics" tkv) as [m|]; simpl in Em.
  - subst m. reflexivity.
  - injection Em as <-. reflexivity.
Qed.

Lemma format_tweet_shaped iso now (ud : pydict) (tweet : json) :
  tweet_shaped tweet = true -> dict_values_are_dicts ud ->
  exists rec : Tweet.t, format_tweet iso now ud tweet = Ok rec.
Proof.
  unfold tweet_shaped, format_tweet. intros Hs Hud.
  apply andb_prop in Hs as [Hs Hm]. apply andb_prop in Hs as [Hd Hk].
  destruct tweet as [ | | | | | tkv]; try discriminate. simpl in *.
  fold (or_default JNull (assoc "author_id" tkv)).
  unfold or_null in Hk.
  destruct (hashable (or_default JNull (assoc "author_id" tkv))) as [key|] eqn:Ek;
    simpl.
  2:{ destruct (or_default JNull (assoc "author_id" tkv)); discriminate. }
  assert (exists akv, match dict_lookup key ud with
                      | Some u => u
                      | None => JDict []
                      end = JDict akv) as [akv ->].
  { destruct (dict_lookup key ud) as [u|] eqn:El; [|now exists []].
    apply (dict_lookup_values key ud u Hud) in El.
    destruct u; try discriminate. now eexists. }
  destruct (assoc "public_metrics" tkv) as [m|]; simpl.
  - destruct m; try discriminate. simpl. now eexists.
  - now eexists.
Qed.

(** ** The whole payload *)

Lemma process_response_spec iso now (data : json) (recs : list Tweet.t) :
  _process_response iso now data = Ok recs ->
  exists ud : pydict,
    foldM add_user (raw_users data) [] = Ok ud /\
    Forall2 (fun raw rec => format_tweet iso now ud raw = Ok rec)
            (raw_tweets data) recs.
Proof.
  unfold _process_response.
  destruct (build_users_dict data) as [ud|] eqn:Eu; simpl; try discriminate.
  apply build_users_dict_spec in Eu.
  intros H. exists ud. split; [exact Eu|]. clear Eu.
  unfold raw_tweets.
  destruct data as [ | | | s | l | kv]; simpl in *; try discriminate.
  - destruct (substringb "data" s); simpl in H; [discriminate|].
    injection H as <-. constructor.
  - destruct (existsb (is_str "data") l); simpl in H; [discriminate|].
    injection H as <-. constructor.
  - destruct (assoc "data" kv) as [raw|]; simpl in H.
    + destruct raw as [ | | | s | l | rkv]; simpl in H; try discriminate.
      * apply mapM_not_dict in H as [_ ->]; [constructor|].
        apply (keys_not_dict (fun a => String a EmptyString)).
      * now apply mapM_Forall2.
      * apply mapM_not_dict in H as [_ ->]; [constructor|].
        apply (keys_not_dict fst).
    + injection H as <-. constructor.
Qed.

Lemma process_response_shaped iso now (data : json) :
  payload_shaped data = true ->
  exists recs : list Tweet.t, _process_response iso now data = Ok recs.
Proof.
  unfold payload_shaped. intros Hs.
  apply andb_prop in Hs as [Hs Ht]. apply andb_prop in Hs as [Hd Hi].
  destruct data as [ | | | | | kv]; try discriminate. simpl in Hi, Ht.
  assert (exists ud, build_users_dict (JDict kv) = Ok ud /\
                     dict_values_are_dicts ud) as (ud & Eu & Hud).
  { unfold build_users_dict. simpl.
    destruct (assoc "includes" kv) as [inc|] eqn:Ei; simpl;
      [|exists []; split; [reflexivity|constructor]].
    apply andb_prop in Hi as [Hinc Hus].
    destruct inc as [ | | | | | ikv]; try discriminate. simpl in *.
    destruct (assoc "users" ikv) as [us|] eqn:Eus; simpl;
      [|exists []; split; [reflexivity|constructor]].
    destruct us as [ | | | | us | ]; try discriminate. simpl.
    destruct (users_dict_shaped us Hus []) as [ud Hud].
    exists ud. split; [exact Hud|].
    apply (users_dict_values us [] ud Hud). constructor. }
  unfold _process_response. rewrite Eu. simpl.
  destruct (assoc "data" kv) as [raw|]; simpl; [|now exists []].
  destruct raw as [ | | | | ts | ]; try discriminate. simpl.
  clear Eu Hi. induction ts as [|t ts IH]; simpl; [now exists []|].
  simpl in Ht. apply andb_prop in Ht as [Ht1 Ht2].
  destruct (format_tweet_shaped iso now ud t Ht1 Hud) as [rec ->].
  destruct (IH Ht2) as [recs ->]. simpl. now eexists.
Qed.

(** ** Exceptions of the processing code

    Nothing below [build_result] raises an [HTTPError]: the handlers of
    the retry loop never see one from there. *)

Lemma not_http_bind {A B} (c : result A) (k : A -> result B) :
  not_http c -> (forall a, not_http (k a)) -> not_http (rbind c k).
Proof. destruct c as [a|e]; simpl; auto. Qed.

Lemma not_http_ok {A} (a : A) : not_http (Ok a).
Proof. exact I. Qed.

Lemma not_http_py_contains k c : not_http (py_contains k c).
Proof. destruct c; exact I. Qed.

Lemma not_http_py_getitem c k : not_http (py_getitem c k).
Proof. destruct c; simpl; try exact I. now destruct (assoc k kv). Qed.

Lemma not_http_py_get c k d : not_http (py_get c k d).
Proof. destruct c; exact I. Qed.

Lemma not_http_py_iter c : not_http (py_iter c).
Proof. destruct c; exact I. Qed.

Lemma not_http_hashable v : not_http (hashable v).
Proof. destruct v; exact I. Qed.

Lemma not_http_py_lt a b : not_http (py_lt a b).
Proof.
  unfold py_lt. destruct (as_int a), (as_int b); try exact I;
    destruct a; try exact I; destruct b; exact I.
Qed.

Lemma not_http_py_int s : not_http (py_int s).
Proof. unfold py_int. now destruct (match strip _ with [] => _ | _ => _ end). Qed.

Lemma not_http_fromtimestamp t : not_http (fromtimestamp t).
Proof.
  unfold fromtimestamp. destruct (datetime_range t); [exact I|].
  now destruct (_ && _)%bool.
Qed.

#[local] Hint Resolve not_http_ok not_http_py_contains not_http_py_getitem
  not_http_py_get not_http_py_iter not_http_hashable not_http_py_lt
  not_http_py_int not_http_fromtimestamp : not_http.

Ltac not_http_step :=
  repeat first
    [ apply not_http_bind; [solve [auto with not_http] | intros ?]
    | solve [auto with not_http] ].

Lemma not_http_mapM {A B} (f : A -> result B) (l : list A) :
  (forall a, not_http (f a)) -> not_http (mapM f l).
Proof.
  intros Hf. induction l as [|x l IH]; simpl; [exact I|].
  apply not_http_bind; [apply Hf|]. intros y.
  apply not_http_bind; [exact IH|]. intros ys. exact I.
Qed.

Lemma not_http_foldM {A B} (f : B -> A -> result B) (l : list A) :
  (forall b a, not_http (f b a)) -> forall acc, not_http (foldM f l acc).
Proof.
  intros Hf. induction l as [|x l IH]; simpl; intros acc; [exact I|].
  apply not_http_bind; [apply Hf|]. intros acc'. apply IH.
Qed.

Lemma not_http_add_user acc user : not_http (add_user acc user).
Proof. unfold add_user. not_http_step. Qed.

Lemma not_http_format_tweet iso now ud tweet :
  not_http (format_tweet iso now ud tweet).
Proof. unfold format_tweet. not_http_step. Qed.

Lemma not_http_build_users_dict data : not_http (build_users_dict data).
Proof.
  unfold build_users_dict. not_http_step.
  destruct a; [|exact I]. not_http_step.
  destruct a0; [|exact I]. not_http_step.
  apply not_http_foldM. intros. apply not_http_add_user.
Qed.

Lemma not_http_process_response iso now data :
  not_http (_process_response iso now data).
Proof.
  unfold _process_response.
  apply not_http_bind; [apply not_http_build_users_dict|]. intros ud.
  not_http_step. destruct a; [|exact I]. not_http_step.
  apply not_http_mapM. intros. apply not_http_format_tweet.
Qed.

Lemma not_http_insert_desc x l : not_http (insert_desc x l).
Proof.
  induction l as [|y r IH]; simpl; [exact I|].
  not_http_step. destruct a; [|exact I].
  apply not_http_bind; [exact IH|]. intros. exact I.
Qed.

Lemma not_http_sort_by_views l : not_http (sort_by_views l).
Proof.
  induction l as [|x r IH]; simpl; [exact I|].
  apply not_http_bind; [exact IH|]. intros. apply not_http_insert_desc.
Qed.

Lemma not_http_build_result iso now q data :
  not_http (build_result iso now q data).
Proof.
  unfold build_result. not_http_step.
  apply not_http_bind.
  - destruct (negb a); [exact I|]. not_http_step.
  - intros [|]; [exact I|].
    apply not_http_bind; [apply not_http_process_response|]. intros.
    apply not_http_bind; [apply not_http_sort_by_views|]. intros. exact I.
Qed.

Lemma not_http_wait_seconds fw r rc now : not_http (wait_seconds fw r rc now).
Proof.
  unfold wait_seconds. destruct (headers_get _ _); [|exact I].
  destruct (String.eqb _ _); [exact I|]. not_http_step.
Qed.

(** ** The value returned *)

Lemma falsy_data_no_tweets (data d : json) :
  py_getitem data "data" = Ok d -> truthy d = false -> raw_tweets data = [].
Proof.
  unfold raw_tweets. destruct data as [ | | | | | kv]; simpl; try discriminate.
  destruct (assoc "data" kv) as [v|]; [|discriminate].
  intros H. injection H as ->. now destruct d as [ | | | | [|] | ].
Qed.

Lemma absent_data_no_tweets (data : json) :
  py_contains "data" data = Ok false -> raw_tweets data = [].
Proof.
  unfold raw_tweets. destruct data as [ | | | | | kv]; simpl; try reflexivity.
  destruct (assoc "data" kv); [discriminate | reflexivity].
Qed.

Lemma build_result_spec iso now q (data : json) (res : SearchResult) :
  build_result iso now q data = Ok res ->
  query res = q /\
  totalResults res = Z.of_nat (List.length (tweets res)) /\
  exists (ud : pydict) (processed : list Tweet.t),
    Forall2 (fun raw rec => format_tweet iso now ud raw = Ok rec)
            (raw_tweets data) processed /\
    sort_by_views processed = Ok (tweets res).
Proof.
  unfold build_result.
  destruct (py_contains "data" data) as [[|]|] eqn:Ec; simpl; try discriminate.
  - destruct (py_getitem data "data") as [d|] eqn:Ed; simpl; try discriminate.
    destruct (truthy d) eqn:Et; simpl.
    + destruct (_process_response iso now data) as [processed|] eqn:Ep; simpl;
        try discriminate.
      destruct (sort_by_views processed) as [sorted|] eqn:Es; simpl;
        try discriminate.
      intros H. injection H as <-. simpl. repeat split.
      apply process_response_spec in Ep as (ud & _ & Hf).
      now exists ud, processed.
    + intros H. injection H as <-. simpl. repeat split.
      exists [], []. rewrite (falsy_data_no_tweets data d Ed Et).
      split; [constructor | reflexivity].
  - intros H. injection H as <-. simpl. repeat split.
    exists [], []. rewrite (absent_data_no_tweets data Ec).
    split; [constructor | reflexivity].
Qed.

(** ** One pass through the retry loop *)

Section Run.

Variable provider : nat -> Request -> Reply.
Variable iso : string -> option Z.

Lemma same_config_refl (st : State) : same_config st st.
Proof. now repeat split. Qed.

Lemma same_config_trans (a b c : State) :
  same_config a b -> same_config b c -> same_config a c.
Proof.
  unfold same_config. intros (H1 & H2 & H3 & H4 & H5) (K1 & K2 & K3 & K4 & K5).
  repeat split; congruence.
Qed.

Lemma http_count_app (l1 l2 : list Event) :
  http_count (l1 ++ l2) = (http_count l1 + http_count l2)%nat.
Proof. unfold http_count. now rewrite filter_app, length_app. Qed.

Lemma attempt_failed q mr req rc st msg :
  answer (provider (http_count (log st)) req) = Failed msg ->
  attempt provider iso q mr req rc st
  = (Raise (RequestException msg), rc, after_send provider req st).
Proof. unfold attempt, attempt_try, send. now intros ->. Qed.

Lemma attempt_429_exhausted q mr req rc st r :
  answer (provider (http_count (log st)) req) = Responded r ->
  status_code r = 429 -> mr < rc + 1 ->
  attempt provider iso q mr req rc st = (Ok Continue, rc + 1, stamped provider req st).
Proof.
  unfold attempt, attempt_try, send. intros -> Hs Hrc.
  rewrite Hs. simpl. destruct (rc + 1 >? mr) eqn:E; [|lia].
  now rewrite Hs.
Qed.

Lemma attempt_429_wait q mr req rc st r w :
  answer (provider (http_count (log st)) req) = Responded r ->
  status_code r = 429 -> rc + 1 <= mr ->
  wait_seconds (rate_limit_wait (self st)) r (rc + 1)
    (clock (after_send provider req st)) = Ok w ->
  attempt provider iso q mr req rc st
  = (if w <? 0 then Raise ValueError else Ok Continue,
     rc + 1, slept w (stamped provider req st)).
Proof.
  unfold attempt, attempt_try, send. intros -> Hs Hrc Hw.
  rewrite Hs. simpl. destruct (rc + 1 >? mr) eqn:E; [lia|].
  simpl in Hw. rewrite Hw. unfold slept, sleep, stamped. simpl.
  now destruct (w <? 0).
Qed.

Lemma attempt_429_raise q mr req rc st r e :
  answer (provider (http_count (log st)) req) = Responded r ->
  status_code r = 429 -> rc + 1 <= mr ->
  wait_seconds (rate_limit_wait (self st)) r (rc + 1)
    (clock (after_send provider req st)) = Raise e ->
  attempt provider iso q mr req rc st = (Raise e, rc + 1, stamped provider req st).
Proof.
  unfold attempt, attempt_try, send. intros -> Hs Hrc Hw.
  rewrite Hs. simpl. destruct (rc + 1 >? mr) eqn:E; [lia|].
  simpl in Hw. rewrite Hw.
  pose proof (not_http_wait_seconds (rate_limit_wait (self st)) r (rc + 1)
                (clock (after_send provider req st))) as Hn.
  simpl in Hn. rewrite Hw in Hn. now destruct e.
Qed.

Lemma not_http_handle_tail now q r :
  not_http ((data <- response_json r ;;
             res <- build_result iso now q data ;;
             Ok (Return res))%result).
Proof.
  apply not_http_bind; [now destruct r as [? ? [j|]]|]. intros data.
  apply not_http_bind; [apply not_http_build_result|]. intros. exact I.
Qed.

Lemma attempt_other q mr req rc st r :
  answer (provider (http_count (log st)) req) = Responded r ->
  status_code r <> 429 ->
  attempt provider iso q mr req rc st
  = (handle_response iso (clock (after_send provider req st)) q r,
     rc, stamped provider req st).
Proof.
  unfold attempt, attempt_try, send, handle_response. intros -> Hs.
  apply Z.eqb_neq in Hs. rewrite Hs. simpl.
  unfold raise_for_status.
  destruct ((400 <=? status_code r) && (status_code r <? 500))%bool; simpl;
    [now rewrite Hs|].
  destruct ((500 <=? status_code r) && (status_code r <? 600))%bool; simpl;
    [now rewrite Hs|].
  pose proof (not_http_handle_tail
                (clock st + Z.of_N (latency (provider (http_count (log st)) req)))
                q r) as Hn.
  destruct (rbind (response_json r) _) as [s|e]; [reflexivity|].
  now destruct e.
Qed.

Lemma handle_response_ok now q r (s : step) :
  handle_response iso now q r = Ok s ->
  exists (data : json) (res : SearchResult),
    s = Return res /\ raise_for_status r = Ok tt /\
    json_body r = Some data /\ build_result iso now q data = Ok res.
Proof.
  unfold handle_response, response_json.
  destruct (raise_for_status r) as [[]|]; simpl; try discriminate.
  destruct (json_body r) as [data|]; simpl; try discriminate.
  destruct (build_result iso now q data) as [res|] eqn:Eb; simpl;
    try discriminate.
  intros H. injection H as <-. now exists data, res.
Qed.

(** The case analysis behind every fact about [attempt]: how the provider
    answers, whether the status is 429, whether retries remain, whether
    the wait can be computed. *)
Ltac attempt_cases q mr req rc st :=
  let r := fresh "r" in
  let msg := fresh "msg" in
  let Ea := fresh "Ea" in
  let Es := fresh "Es" in
  let Hrc := fresh "Hrc" in
  let w := fresh "w" in
  let e := fresh "e" in
  let Ew := fresh "Ew" in
  destruct (answer (provider (http_count (log st)) req)) as [r|msg] eqn:Ea;
  [ destruct (Z.eq_dec (status_code r) 429) as [Es|Es];
    [ destruct (Z_lt_le_dec mr (rc + 1)) as [Hrc|Hrc];
      [ rewrite (attempt_429_exhausted q mr req rc st r Ea Es Hrc)
      | destruct (wait_seconds (rate_limit_wait (self st)) r (rc + 1)
                    (clock (after_send provider req st))) as [w|e] eqn:Ew;
        [ rewrite (attempt_429_wait q mr req rc st r w Ea Es Hrc Ew)
        | rewrite (attempt_429_raise q mr req rc st r e Ea Es Hrc Ew) ] ]
    | rewrite (attempt_other q mr req rc st r Ea Es) ]
  | rewrite (attempt_failed q mr req rc st msg Ea) ].

Lemma slept_log d st : log (slept d st) = log st ++ [ESleep d].
Proof. unfold slept, sleep. now destruct (d <? 0). Qed.

Lemma slept_config d st : same_config st (slept d st).
Proof. unfold slept, sleep. destruct (d <? 0); now repeat split. Qed.

Lemma stamped_log req st : log (stamped provider req st) = log st ++ [EHttp req].
Proof. reflexivity. Qed.

Lemma stamped_config req st : same_config st (stamped provider req st).
Proof. now repeat split. Qed.

Lemma http_count_stamped req st :
  http_count (log (stamped provider req st)) = S (http_count (log st)).
Proof.
  rewrite stamped_log, http_count_app.
  change (http_count [EHttp req]) with 1%nat. lia.
Qed.


Lemma attempt_log q mr req rc st out rc' st' :
  attempt provider iso q mr req rc st = (out, rc', st') ->
  same_config st st' /\
  exists evs : list Event,
    log st' = log st ++ EHttp req :: evs /\
    Forall (fun e => is_sleep e = true) evs.
Proof.
  attempt_cases q mr req rc st; intros H; injection H as <- <- <-.
  - split; [apply stamped_config|]. exists []. now split.
  - split.
    + eapply same_config_trans; [apply stamped_config | apply slept_config].
    + exists [ESleep w]. rewrite slept_log, stamped_log, <- app_assoc.
      split; [reflexivity | now repeat constructor].
  - split; [apply stamped_config|]. exists []. now split.
  - split; [apply stamped_config|]. exists []. now split.
  - split; [now repeat split|]. exists []. now split.
Qed.

Lemma attempt_continue q mr req rc st rc' st' :
  attempt provider iso q mr req rc st = (Ok Continue, rc', st') -> rc' = rc + 1.
Proof.
  attempt_cases q mr req rc st; intros H; inversion H; subst;
    try reflexivity.
  match goal with
  | K : handle_response _ _ _ _ = Ok Continue |- _ =>
      apply handle_response_ok in K as (data & res & K & _); discriminate K
  end.
Qed.

Lemma attempt_return q mr req rc st res rc' st' :
  attempt provider iso q mr req rc st = (Ok (Return res), rc', st') ->
  exists (r : Response) (data : json),
    answer (provider (http_count (log st)) req) = Responded r /\
    status_code r <> 429 /\ raise_for_status r = Ok tt /\
    json_body r = Some data /\
    build_result iso (clock st') q data = Ok res /\
    st' = stamped provider req st.
Proof.
  attempt_cases q mr req rc st; intros H; inversion H; subst.
  - destruct (w <? 0); discriminate.
  - match goal with
    | K : handle_response _ _ _ _ = Ok (Return res) |- _ =>
        apply handle_response_ok in K as (data & res' & K & Hr & Hj & Hb);
        injection K as <-
    end.
    now exists r, data.
Qed.

(** ** The retry loop *)

Lemma search_loop_total q mr req :
  forall (fuel : nat) (rc : Z) (st : State),
    (Z.to_nat (mr + 1 - rc) <= fuel)%nat ->
    exists out st', search_loop provider iso fuel q mr req rc st = Some (out, st').
Proof.
  induction fuel as [|fuel IH]; intros rc st Hf; simpl.
  - destruct (rc <=? mr) eqn:E; [apply Z.leb_le in E; lia | now eexists; eexists].
  - destruct (rc <=? mr) eqn:E; [|now eexists; eexists].
    apply Z.leb_le in E.
    destruct (attempt provider iso q mr req rc st) as [[[[|res]|e] rc'] st'] eqn:Ea;
      try (now eexists; eexists).
    apply attempt_continue in Ea. subst rc'. apply IH. lia.
Qed.

Lemma search_loop_log q mr req :
  forall (fuel : nat) (rc : Z) (st : State) out st',
    search_loop provider iso fuel q mr req rc st = Some (out, st') ->
    same_config st st' /\
    exists evs : list Event,
      log st' = log st ++ evs /\ Forall (search_or_sleep req) evs.
Proof.
  assert (forall evs, Forall (fun e => is_sleep e = true) evs ->
                      Forall (search_or_sleep req) (EHttp req :: evs)) as Hev.
  { intros evs H. constructor; [now left|].
    eapply Forall_impl; [|exact H]. intros e He. now right. }
  induction fuel as [|fuel IH]; intros rc st out st'; simpl;
    destruct (rc <=? mr); try discriminate.
  1,3: intros H; injection H as <- <-; (split; [apply same_config_refl|]);
       exists []; rewrite app_nil_r; now split.
  destruct (attempt provider iso q mr req rc st) as [[[[|res]|e] rc1] st1] eqn:Ea;
    apply attempt_log in Ea as (Hc & evs & Hl & Hs).
  - intros H. apply IH in H as (Hc' & evs' & Hl' & Hs').
    split; [eapply same_config_trans; eassumption|].
    exists ((EHttp req :: evs) ++ evs'). rewrite Hl', Hl, <- app_assoc.
    split; [reflexivity|]. apply Forall_app. split; [now apply Hev | exact Hs'].
  - intros H. injection H as <- <-. split; [exact Hc|].
    exists (EHttp req :: evs). split; [exact Hl | now apply Hev].
  - intros H. injection H as <- <-. split; [exact Hc|].
    exists (EHttp req :: evs). split; [exact Hl | now apply Hev].
Qed.

Lemma search_loop_return q mr req :
  forall (fuel : nat) (rc : Z) (st : State) res st',
    search_loop provider iso fuel q mr req rc st = Some (Ok res, st') ->
    exists (r : Response) (data : json),
      answer (provider (pred (http_count (log st'))) req) = Responded r /\
      json_body r = Some data /\
      build_result iso (clock st') q data = Ok res.
Proof.
  induction fuel as [|fuel IH]; intros rc st res st'; simpl;
    destruct (rc <=? mr); try discriminate.
  destruct (attempt provider iso q mr req rc st) as [[[[|res1]|e] rc1] st1] eqn:Ea.
  - apply IH.
  - intros H. injection H as <- <-.
    apply attempt_return in Ea as (r & data & Hr & _ & _ & Hj & Hb & ->).
    exists r, data. rewrite http_count_stamped. simpl. now repeat split.
  - discriminate.
Qed.

(** ** Every attempt answered 429 *)




(** ** Token and spacing *)

Lemma get_bearer_token_log st :
  log (snd (get_bearer_token provider st))
  = log st ++ [EHttp (token_request (api_key (self st)) (api_secret (self st)))].
Proof.
  unfold get_bearer_token, mbind, get_state, send, lift.
  destruct (answer _) as [r|msg]; simpl; [|reflexivity].
  destruct (raise_for_status r) as [[]|]; simpl; [|reflexivity].
  destruct (response_json r) as [j|]; simpl; [|reflexivity].
  now destruct (py_get j "access_token" JNull).
Qed.

Lemma throttle_spec st :
  exists (st' : State) (pre : list Event),
    throttle st = (Ok tt, st') /\ same_config st st' /\
    log st' = log st ++ pre /\ Forall (fun e => is_sleep e = true) pre.
Proof.
  unfold throttle, mbind, get_state, mret.
  assert (exists st' pre, (Ok tt, st) = (Ok tt, st') /\ same_config st st' /\
            log st' = log st ++ pre /\ Forall (fun e => is_sleep e = true) pre) as Hid.
  { exists st, []. rewrite app_nil_r. repeat split. constructor. }
  destruct (last_request_time (self st)) as [t|]; [|exact Hid].
  destruct (t =? 0); [exact Hid|].
  destruct (clock st - t <? min_request_interval (self st)) eqn:E; [|exact Hid].
  apply Z.ltb_lt in E. unfold sleep.
  destruct (min_request_interval (self st) - (clock st - t) <? 0) eqn:E';
    [apply Z.ltb_lt in E'; lia|].
  eexists. exists [ESleep (min_request_interval (self st) - (clock st - t))].
  split; [reflexivity|]. repeat split. now repeat constructor.
Qed.

Lemma prelude_cached st :
  truthy (bearer_token (self st)) = true ->
  exists (st1 : State) (pre : list Event),
    (ensure_token provider ;;; throttle)%M st = (Ok tt, st1) /\
    same_config st st1 /\ log st1 = log st ++ pre /\
    Forall (fun e => is_sleep e = true) pre.
Proof.
  intros Ht. unfold mbind at 1. unfold ensure_token, mbind, get_state, mret.
  rewrite Ht. simpl. apply throttle_spec.
Qed.

Lemma prelude_log st out st1 :
  (ensure_token provider ;;; throttle)%M st = (out, st1) ->
  exists pre : list Event,
    log st1 = log st ++ token_events st ++ pre /\
    Forall (fun e => is_sleep e = true) pre.
Proof.
  unfold token_events.
  destruct (truthy (bearer_token (self st))) eqn:Ht.
  - destruct (prelude_cached st Ht) as (st1' & pre & -> & _ & Hl & Hp).
    intros H. injection H as <- <-. now exists pre.
  - unfold mbind at 1. unfold ensure_token, mbind at 1, get_state.
    rewrite Ht. simpl. unfold mbind at 1, mret.
    pose proof (get_bearer_token_log st) as Hl.
    destruct (get_bearer_token provider st) as [[tok|e] st0]; simpl in Hl.
    + destruct (throttle_spec st0) as (st1' & pre & -> & _ & Hl' & Hp).
      intros H. injection H as <- <-. exists pre.
      rewrite Hl', Hl, <- app_assoc. now split.
    + intros H. injection H as <- <-. exists []. rewrite Hl. now split.
Qed.

Lemma http_count_sleeps (l pre : list Event) :
  Forall (fun e => is_sleep e = true) pre -> http_count (l ++ pre) = http_count l.
Proof.
  intros H. rewrite http_count_app.
  replace (http_count pre) with 0%nat; [lia|].
  unfold http_count. induction H as [|e pre He _ IH]; [reflexivity|].
  simpl. destruct e; [discriminate He | exact IH].
Qed.

(** ** The whole call *)

Lemma search_tweets_total q m mr st :
  exists out st', search_tweets provider iso q m mr st = Some (out, st').
Proof.
  unfold search_tweets.
  destruct ((ensure_token provider ;;; throttle)%M st) as [[[]|e] st1].
  - apply search_loop_total. lia.
  - now eexists; eexists.
Qed.

Lemma search_tweets_log q m mr st out st' :
  search_tweets provider iso q m mr st = Some (out, st') ->
  exists rest : list Event,
    log st' = log st ++ token_events st ++ rest /\
    Forall (search_or_sleep (search_request (bearer_token (self st')) q m)) rest /\
    (truthy (bearer_token (self st)) = true -> same_config st st').
Proof.
  unfold search_tweets.
  destruct ((ensure_token provider ;;; throttle)%M st) as [[[]|e] st1] eqn:Ep.
  - intros H. apply search_loop_log in H as (Hc & evs & Hl & He).
    assert (bearer_token (self st') = bearer_token (self st1)) as Hb
      by apply Hc.
    rewrite Hb.
    destruct (prelude_log st _ _ Ep) as (pre & Hl1 & Hp).
    exists (pre ++ evs). rewrite Hl, Hl1, <- !app_assoc.
    split; [reflexivity|]. split.
    + apply Forall_app. split; [|exact He].
      eapply Forall_impl; [|exact Hp]. intros e He'. now right.
    + intros Ht. destruct (prelude_cached st Ht) as (st1' & pre' & Ep' & Hc' & _).
      rewrite Ep in Ep'. injection Ep' as <-.
      eapply same_config_trans; eassumption.
  - intros H. injection H as <- <-.
    destruct (prelude_log st _ _ Ep) as (pre & Hl1 & Hp).
    exists pre. split; [exact Hl1|]. split.
    + eapply Forall_impl; [|exact Hp]. intros e' He'. now right.
    + intros Ht. destruct (prelude_cached st Ht) as (st1' & pre' & Ep' & _).
      rewrite Ep in Ep'. discriminate Ep'.
Qed.

Lemma search_tweets_return q m mr st res st' :
  search_tweets provider iso q m mr st = Some (Ok res, st') ->
  exists (r : Response) (data : json),
    answer (provider (pred (http_count (log st')))
              (search_request (bearer_token (self st')) q m)) = Responded r /\
    json_body r = Some data /\
    build_result iso (clock st') q data = Ok res.
Proof.
  unfold search_tweets.
  destruct ((ensure_token provider ;;; throttle)%M st) as [[[]|e] st1] eqn:Ep;
    [|discriminate].
  intros H. pose proof H as H'.
  apply search_loop_log in H' as (Hc & _).
  assert (bearer_token (self st') = bearer_token (self st1)) as Hb by apply Hc.
  rewrite Hb. now apply search_loop_return in H.
Qed.

(** ** The claims about the retry loop *)




(** ** The claims about the value returned *)


(** C4.  Every result that a search returns has [totalResults] equal to
    the number of its tweets and carries the query it was called with.
    And when the token is in hand, a retry budget that is not negative is
    given, and the first response is a success whose body is an object
    with no [data] entry or with an empty [data] list, the search returns
    the result with no tweets, [totalResults] 0 and the query. *)
Theorem search_result_consistent q m mr st :
  (forall res st',
     search_tweets provider iso q m mr st = Some (Ok res, st') ->
     totalResults res = Z.of_nat (List.length (tweets res)) /\ query res = q) /\
  (forall (r : Response) (kv : list (string * json)),
     truthy (bearer_token (self st)) = true ->
     0 <= mr ->
     answer (provider (http_count (log st))
               (search_request (bearer_token (self st)) q m)) = Responded r ->
     200 <= status_code r < 300 ->
     json_body r = Some (JDict kv) ->
     assoc "data" kv = None \/ assoc "data" kv = Some (JList []) ->
     exists st',
       search_tweets provider iso q m mr st
       = Some (Ok {| tweets := []; totalResults := 0; query := q |}, st')).
Proof.
  split.
  - intros res st' H. apply search_tweets_return in H as (r & data & _ & _ & Hb).
    apply build_result_spec in Hb as (Hq & Hn & _). now split.
  - intros r kv Ht Hmr Ha Hs Hj Hd. unfold search_tweets.
    destruct (prelude_cached st Ht) as (st1 & pre & -> & Hc & Hl & Hp).
    assert (bearer_token (self st1) = bearer_token (self st)) as -> by apply Hc.
    assert (http_count (log st1) = http_count (log st)) as Hn
      by (rewrite Hl; now apply http_count_sleeps).
    destruct (Z.to_nat (mr + 1)) as [|fuel] eqn:Ef; [lia|]. simpl.
    destruct (0 <=? mr) eqn:E; [|apply Z.leb_gt in E; lia].
    rewrite <- Hn in Ha.
    rewrite (attempt_other q mr _ 0 st1 r Ha ltac:(lia)).
    assert (handle_response iso
              (clock (after_send provider
                        (search_request (bearer_token (self st)) q m) st1)) q r
            = Ok (Return {| tweets := []; totalResults := 0; query := q |}))
      as ->.
    { unfold handle_response, raise_for_status, response_json.
      destruct ((400 <=? status_code r) && (status_code r <? 500))%bool eqn:E4;
        [apply andb_prop in E4 as [E4 _]; apply Z.leb_le in E4; lia|].
      destruct ((500 <=? status_code r) && (status_code r <? 600))%bool eqn:E5;
        [apply andb_prop in E5 as [E5 _]; apply Z.leb_le in E5; lia|].
      rewrite Hj. simpl. unfold build_result. simpl.
      destruct Hd as [-> | ->]; reflexivity. }
    now eexists.
Qed.

(** C5.  The [max_results] parameter of the search request is the input
    clamped to the interval from 10 to 100: 10 for an input below 10, 100
    for an input above 100, the input itself otherwise.  Every request
    that a search logs after the token request carries that value. *)
Theorem max_results_clamped q m mr st :
  let sent := if m <? 10 then 10 else if 100 <? m then 100 else m in
  10 <= sent <= 100 /\
  (forall token : json,
     assoc "max_results" (params (search_request token q m)) = Some (JInt sent)) /\
  (forall out st',
     search_tweets provider iso q m mr st = Some (out, st') ->
     exists rest : list Event,
       log st' = log st ++ token_events st ++ rest /\
       Forall (fun e => forall req : Request,
                 e = EHttp req ->
                 assoc "max_results" (params req) = Some (JInt sent)) rest).
Proof.
  intros sent.
  assert (Z.min (Z.max m 10) 100 = sent) as Hsent.
  { unfold sent. destruct (m <? 10) eqn:E1; [apply Z.ltb_lt in E1; lia|].
    apply Z.ltb_ge in E1.
    destruct (100 <? m) eqn:E2; [apply Z.ltb_lt in E2 | apply Z.ltb_ge in E2]; lia. }
  split; [|split].
  - unfold sent. destruct (m <? 10) eqn:E1; [lia|]. apply Z.ltb_ge in E1.
    destruct (100 <? m) eqn:E2; [lia|]. apply Z.ltb_ge in E2. lia.
  - intros token. simpl. now rewrite Hsent.
  - intros out st' H. apply search_tweets_log in H as (rest & Hl & Hr & _).
    exists rest. split; [exact Hl|].
    eapply Forall_impl; [|exact Hr].
    intros e [-> | He] req Hreq.
    + injection Hreq as <-. simpl. now rewrite Hsent.
    + subst e. discriminate He.
Qed.

Lemma search_loop_first_request q mr req st :
  0 <= mr ->
  exists out st' (rest : list Event),
    search_loop provider iso (Z.to_nat (mr + 1)) q mr req 0 st = Some (out, st') /\
    log st' = log st ++ EHttp req :: rest.
Proof.
  intros Hmr. destruct (Z.to_nat (mr + 1)) as [|fuel] eqn:Ef; [lia|]. simpl.
  destruct (0 <=? mr) eqn:E; [|apply Z.leb_gt in E; lia].
  destruct (attempt provider iso q mr req 0 st) as [[[[|res]|e] rc1] st1] eqn:Ea;
    pose proof Ea as Ea';
    apply attempt_log in Ea' as (_ & evs & Hl & _).
  - apply attempt_continue in Ea. subst rc1.
    destruct (search_loop_total q mr req fuel (0 + 1) st1) as (out & st' & El);
      [lia|].
    pose proof El as El'. apply search_loop_log in El' as (_ & evs' & Hl' & _).
    exists out, st', (evs ++ evs'). split; [exact El|].
    now rewrite Hl', Hl, <- app_assoc.
  - now exists (Ok res), st1, evs.
  - now exists (Raise e), st1, evs.
Qed.

(** C6, as the code has it.  The search does not examine the query.  With
    a token in hand and a retry budget that is not negative, any query,
    the empty one included, goes upstream as the [query] parameter of a
    search request, after at most a sleep for spacing. *)
Theorem query_is_sent_unvalidated q m mr st :
  0 <= mr ->
  truthy (bearer_token (self st)) = true ->
  exists out st' (pre rest : list Event),
    search_tweets provider iso q m mr st = Some (out, st') /\
    log st'
    = log st ++ pre
        ++ EHttp (search_request (bearer_token (self st)) q m) :: rest /\
    Forall (fun e => is_sleep e = true) pre /\
    assoc "query" (params (search_request (bearer_token (self st)) q m))
    = Some (JStr q).
Proof.
  intros Hmr Ht. unfold search_tweets.
  destruct (prelude_cached st Ht) as (st1 & pre & -> & Hc & Hl & Hp).
  assert (bearer_token (self st1) = bearer_token (self st)) as -> by apply Hc.
  destruct (search_loop_first_request q mr
              (search_request (bearer_token (self st)) q m) st1 Hmr)
    as (out & st' & rest & Hloop & Hlog).
  exists out, st', pre, rest. split; [exact Hloop|].
  split; [now rewrite Hlog, Hl, <- app_assoc|]. now split.
Qed.

(** C9, as the code has it.  [get_bearer_token] itself sends the token
    request every time it is called.  It is [search_tweets] that calls it
    only when no truthy token is stored: the events of a search are the
    token request, if the token was missing, followed by GET requests and
    sleeps only, so that no retry fetches a token; and a search that
    starts with a token in hand ends with the same token. *)
Theorem token_fetched_only_when_missing q m mr st :
  log (snd (get_bearer_token provider st))
  = log st ++ [EHttp (token_request (api_key (self st)) (api_secret (self st)))] /\
  (forall out st',
     search_tweets provider iso q m mr st = Some (out, st') ->
     exists rest : list Event,
       log st' = log st ++ token_events st ++ rest /\
       Forall get_or_sleep rest /\
       (truthy (bearer_token (self st)) = true ->
        token_events st = [] /\
        bearer_token (self st') = bearer_token (self st))).
Proof.
  split; [apply get_bearer_token_log|].
  intros out st' H. apply search_tweets_log in H as (rest & Hl & Hr & Hc).
  exists rest. split; [exact Hl|]. split.
  - eapply Forall_impl; [|exact Hr]. intros e [-> | He]; [reflexivity|].
    now destruct e.
  - intros Ht. split; [unfold token_events; now rewrite Ht | apply (Hc Ht)].
Qed.

(** ** The claims about the processing of a payload *)

(** C7, as the code has it.  On a payload of the provider's shape the
    processing does not raise.  It makes one record per raw tweet, in
    order.  A tweet that no included user matches gets the author
    "Unknown", the handle "@unknown" and [verified] false; and each of
    the four counts that the tweet lacks is 0. *)
Theorem normalizer_defaults now (data : json) :
  payload_shaped data = true ->
  exists recs : list Tweet.t,
    _process_response iso now data = Ok recs /\
    Forall2
      (fun raw rec =>
         (existsb (author_matches raw) (raw_users data) = false ->
          Tweet.author rec = JStr "Unknown" /\
          Tweet.username rec = "@unknown" /\
          Tweet.verified rec = JBool false) /\
         (metric "impression_count" raw = None -> Tweet.views rec = JInt 0) /\
         (metric "like_count" raw = None -> Tweet.likes rec = JInt 0) /\
         (metric "retweet_count" raw = None -> Tweet.retweets rec = JInt 0) /\
         (metric "reply_count" raw = None -> Tweet.replies rec = JInt 0))
      (raw_tweets data) recs.
Proof.
  intros Hs. destruct (process_response_shaped iso now data Hs) as [recs Hp].
  exists recs. split; [exact Hp|].
  apply process_response_spec in Hp as (ud & Hud & Hf).
  eapply Forall2_impl; [|exact Hf]. clear Hf.
  intros raw rec Hrec. simpl in Hrec.
  apply format_tweet_inv in Hrec as (key & akv & _ & Hk & Ha & ->). simpl.
  split; [|repeat split; intros ->; reflexivity].
  intros Hno.
  rewrite (users_dict_no_match raw key (raw_users data) Hk Hno [] ud Hud eq_refl)
    in Ha.
  simpl in Ha. injection Ha as <-. now repeat split.
Qed.

(** C8, as the code has it.  The [views] of a record are the
    [impression_count] of its raw tweet, or 0 when the tweet has none; the
    sign is the provider's.  So when no raw tweet has a negative or
    non-numeric impression count, every record has [views >= 0]. *)
Theorem views_echo_impressions now (data : json) (recs : list Tweet.t) :
  _process_response iso now data = Ok recs ->
  Forall2
    (fun raw rec =>
       Tweet.views rec = or_default (JInt 0) (metric "impression_count" raw))
    (raw_tweets data) recs /\
  (forallb impressions_nonneg (raw_tweets data) = true ->
   Forall (fun rec => exists n : Z, Tweet.views rec = JInt n /\ 0 <= n) recs).
Proof.
  intros Hp. apply process_response_spec in Hp as (ud & _ & Hf).
  assert (Forall2
            (fun raw rec =>
               Tweet.views rec = or_default (JInt 0) (metric "impression_count" raw))
            (raw_tweets data) recs) as Hv.
  { eapply Forall2_impl; [|exact Hf]. intros raw rec Hrec. simpl in Hrec.
    now apply format_tweet_inv in Hrec as (key & akv & _ & _ & _ & ->). }
  split; [exact Hv|]. clear Hf.
  induction Hv as [|raw rec raws recs Hr Hv IH]; simpl; intros Hn;
    [constructor|].
  apply andb_prop in Hn as [Hn1 Hn2]. constructor; [|now apply IH].
  rewrite Hr. unfold impressions_nonneg in Hn1.
  destruct (metric "impression_count" raw) as [[ | | n | | | ]|];
    try discriminate; simpl.
  - exists n. split; [reflexivity | now apply Z.leb_le].
  - exists 0. split; [reflexivity | lia].
Qed.

(** C10.  The record of a raw tweet that no included user matches has the
    URL "https://twitter.com/i/status/" followed by the text of the
    tweet's id.  Its handle is "@unknown", so the URL is not the one the
    handle would give. *)
Theorem unmatched_author_url now (data : json) (recs : list Tweet.t) :
  _process_response iso now data = Ok recs ->
  Forall2
    (fun raw rec =>
       existsb (author_matches raw) (raw_users data) = false ->
       Tweet.url rec
       = ("https://twitter.com/i/status/" ++ py_str (or_null (field "id" raw)))%string /\
       Tweet.id rec = or_null (field "id" raw) /\
       Tweet.username rec = "@unknown" /\
       Tweet.url rec
       <> ("https://twitter.com/unknown/status/" ++ py_str (Tweet.id rec))%string)
    (raw_tweets data) recs.
Proof.
  intros Hp. apply process_response_spec in Hp as (ud & Hud & Hf).
  eapply Forall2_impl; [|exact Hf]. clear Hf.
  intros raw rec Hrec Hno. simpl in Hrec.
  apply format_tweet_inv in Hrec as (key & akv & _ & Hk & Ha & ->). simpl.
  rewrite (users_dict_no_match raw key (raw_users data) Hk Hno [] ud Hud eq_refl)
    in Ha.
  simpl in Ha. injection Ha as <-. simpl.
  repeat split. discriminate.
Qed.

End Run.

(** * The statements on sample runs *)





Lemma search_result_consistent_witness :
  (exists (res : SearchResult) (st' : State),
     search_tweets (never_limited sample_payload) no_iso "Python" 10 3 sample_state
     = Some (Ok res, st') /\
     totalResults res = Z.of_nat (List.length (tweets res)) /\
     query res = "Python") /\
  exists st' : State,
    search_tweets (never_limited no_tweets) no_iso "Python" 10 3 sample_state
    = Some (Ok {| tweets := []; totalResults := 0; query := "Python" |}, st').
Proof.
  split.
  - eexists. eexists. split; [vm_compute; reflexivity|].
    refine (proj1 (search_result_consistent (never_limited sample_payload)
                     no_iso "Python" 10 3 sample_state) _ _ _).
    vm_compute. reflexivity.
  - refine (proj2 (search_result_consistent (never_limited no_tweets)
                     no_iso "Python" 10 3 sample_state)
              (ok_response no_tweets) _ eq_refl _ eq_refl _ eq_refl _).
    + lia.
    + simpl. lia.
    + right. reflexivity.
Defined.

Lemma max_results_clamped_witness :
  assoc "max_results" (params (search_request (JStr "token") "Python" 5))
  = Some (JInt 10) /\
  assoc "max_results" (params (search_request (JStr "token") "Python" 500))
  = Some (JInt 100) /\
  assoc "max_results" (params (search_request (JStr "token") "Python" 42))
  = Some (JInt 42).
Proof.
  split; [|split].
  - exact (proj1 (proj2 (max_results_clamped always_limited no_iso "Python" 5 3
                           sample_state)) (JStr "token")).
  - exact (proj1 (proj2 (max_results_clamped always_limited no_iso "Python" 500 3
                           sample_state)) (JStr "token")).
  - exact (proj1 (proj2 (max_results_clamped always_limited no_iso "Python" 42 3
                           sample_state)) (JStr "token")).
Defined.

Lemma empty_query_reaches_provider :
  exists st' : State,
    search_tweets (never_limited no_tweets) no_iso EmptyString 10 3 sample_state
    = Some (Ok {| tweets := []; totalResults := 0; query := EmptyString |}, st') /\
    log st' = [EHttp (search_request (JStr "token") EmptyString 10)].
Proof. eexists. split; vm_compute; reflexivity. Qed.

Lemma query_is_sent_unvalidated_witness :
  exists out st' (pre rest : list Event),
    search_tweets (never_limited no_tweets) no_iso EmptyString 10 3 sample_state
    = Some (out, st') /\
    log st'
    = log sample_state ++ pre
        ++ EHttp (search_request (bearer_token (self sample_state)) EmptyString 10)
        :: rest /\
    Forall (fun e => is_sleep e = true) pre /\
    assoc "query"
      (params (search_request (bearer_token (self sample_state)) EmptyString 10))
    = Some (JStr EmptyString).
Proof.
  apply (query_is_sent_unvalidated (never_limited no_tweets) no_iso
           EmptyString 10 3 sample_state).
  - lia.
  - reflexivity.
Defined.

Lemma normalizer_raises_on_malformed_payload :
  _process_response no_iso 0 payload_user_without_id = Raise (KeyError "id") /\
  _process_response no_iso 0 payload_null_metrics = Raise AttributeError.
Proof. split; reflexivity. Qed.

Lemma normalizer_defaults_witness :
  exists recs : list Tweet.t,
    _process_response no_iso 0 sample_payload = Ok recs /\
    map Tweet.author recs
    = [JStr "Ann"; JStr "Unknown"; JStr "Unknown"; JStr "Ann"] /\
    map Tweet.views recs = [JInt 50; JInt 200; JInt 0; JInt 50].
Proof.
  destruct (normalizer_defaults no_iso 0 sample_payload eq_refl)
    as (recs & Hp & _).
  exists recs. split; [exact Hp|].
  vm_compute in Hp. injection Hp as <-. split; reflexivity.
Defined.

Lemma views_can_be_negative :
  exists rec : Tweet.t,
    _process_response no_iso 0 payload_negative_views = Ok [rec] /\
    Tweet.views rec = JInt (-5).
Proof. eexists. split; vm_compute; reflexivity. Qed.

Lemma views_echo_impressions_witness :
  exists recs : list Tweet.t,
    _process_response no_iso 0 sample_payload = Ok recs /\
    Forall (fun rec => exists n : Z, Tweet.views rec = JInt n /\ 0 <= n) recs.
Proof.
  eexists. split; [vm_compute; reflexivity|].
  refine (proj2 (views_echo_impressions no_iso 0 sample_payload _ _) eq_refl).
  vm_compute. reflexivity.
Defined.

Lemma get_bearer_token_requests_again :
  let first := get_bearer_token token_provider fresh_state in
  let second := get_bearer_token token_provider (snd first) in
  fst first = Ok (JStr "abc") /\
  bearer_token (self (snd first)) = JStr "abc" /\
  fst second = Ok (JStr "abc") /\
  log (snd first) = [EHttp (token_request "key" "secret")] /\
  log (snd second)
  = [EHttp (token_request "key" "secret"); EHttp (token_request "key" "secret")].
Proof. repeat split. Qed.

Lemma token_fetched_only_when_missing_witness :
  exists out st' (rest : list Event),
    search_tweets token_provider no_iso "Python" 10 3 fresh_state = Some (out, st') /\
    log st' = EHttp (token_request "key" "secret") :: rest /\
    Forall get_or_sleep rest.
Proof.
  destruct (search_tweets_total token_provider no_iso "Python" 10 3 fresh_state)
    as (out & st' & H).
  destruct (proj2 (token_fetched_only_when_missing token_provider no_iso
                     "Python" 10 3 fresh_state) out st' H)
    as (rest & Hl & Hr & _).
  now exists out, st', rest.
Defined.

Lemma unmatched_author_url_witness :
  exists recs : list Tweet.t,
    _process_response no_iso 0 sample_payload = Ok recs /\
    map Tweet.url recs
    = ["https://twitter.com/ann/status/1"; "https://twitter.com/i/status/2";
       "https://twitter.com/i/status/3"; "https://twitter.com/ann/status/4"] /\
    Forall2
      (fun raw rec =>
         existsb (author_matches raw) (raw_users sample_payload) = false ->
         Tweet.url rec
         = ("https://twitter.com/i/status/"
              ++ py_str (or_null (field "id" raw)))%string /\
         Tweet.id rec = or_null (field "id" raw) /\
         Tweet.username rec = "@unknown" /\
         Tweet.url rec
         <> ("https://twitter.com/unknown/status/" ++ py_str (Tweet.id rec))%string)
      (raw_tweets sample_payload) recs.
Proof.
  eexists. split; [vm_compute; reflexivity|]. split; [reflexivity|].
  apply (unmatched_author_url no_iso 0 sample_payload).
  vm_compute. reflexivity.
Defined.

(** * Further properties *)

Section Further.

Variable provider : nat -> Request -> Reply.
Variable iso : string -> option Z.

(** ** The token request *)

Lemma raise_for_status_ok (r : Response) :
  raise_for_status r = Ok tt <-> error_status (status_code r) = false.
Proof.
  unfold raise_for_status, error_status.
  destruct (400 <=? status_code r) eqn:E4, (status_code r <? 500) eqn:E5,
           (500 <=? status_code r) eqn:E6, (status_code r <? 600) eqn:E7;
    simpl; split; intros H; try reflexivity; try discriminate;
    apply Z.leb_gt in E6 || apply Z.ltb_ge in E5 || idtac; lia.
Qed.

Lemma get_bearer_token_cases (st : State) :
  let req := token_request (api_key (self st)) (api_secret (self st)) in
  get_bearer_token provider st
  = match answer (provider (http_count (log st)) req) with
    | Failed msg => (Raise (RequestException msg), after_send provider req st)
    | Responded r =>
        match (_ <- raise_for_status r ;;
               token_data <- response_json r ;;
               py_get token_data "access_token" JNull)%result with
        | Ok token => (Ok token, set_bearer_token token (after_send provider req st))
        | Raise e => (Raise e, after_send provider req st)
        end
    end.
Proof.
  unfold get_bearer_token, mbind, get_state, send, lift. simpl.
  destruct (answer _) as [r|msg]; [|reflexivity].
  destruct (raise_for_status r) as [[]|]; simpl; [|reflexivity].
  destruct (response_json r) as [j|]; simpl; [|reflexivity].
  now destruct (py_get j "access_token" JNull).
Qed.

Lemma get_bearer_token_success (st : State) (r : Response)
    (kv : list (string * json)) :
  let req := token_request (api_key (self st)) (api_secret (self st)) in
  answer (provider (http_count (log st)) req) = Responded r ->
  error_status (status_code r) = false ->
  json_body r = Some (JDict kv) ->
  get_bearer_token provider st
  = (Ok (or_null (assoc "access_token" kv)),
     set_bearer_token (or_null (assoc "access_token" kv))
       (after_send provider req st)).
Proof.
  intros req Ha Hs Hj. rewrite get_bearer_token_cases. fold req. rewrite Ha.
  apply raise_for_status_ok in Hs. rewrite Hs. unfold response_json.
  rewrite Hj. reflexivity.
Qed.

(** [get_bearer_token] changes nothing of the client but the token, and
    the token only when it returns: then the token stored is the one
    returned, which is the [access_token] entry of a response that has no
    error status and an object as body, or [None] when the object lacks
    the entry.  When it raises, the token stored before is still there. *)
Theorem get_bearer_token_stores_or_keeps (st : State) :
  let req := token_request (api_key (self st)) (api_secret (self st)) in
  let out := fst (get_bearer_token provider st) in
  let st' := snd (get_bearer_token provider st) in
  api_key (self st') = api_key (self st) /\
  api_secret (self st') = api_secret (self st) /\
  rate_limit_wait (self st') = rate_limit_wait (self st) /\
  last_request_time (self st') = last_request_time (self st) /\
  min_request_interval (self st') = min_request_interval (self st) /\
  match out with
  | Ok token =>
      bearer_token (self st') = token /\
      exists (r : Response) (kv : list (string * json)),
        answer (provider (http_count (log st)) req) = Responded r /\
        error_status (status_code r) = false /\
        json_body r = Some (JDict kv) /\
        token = or_null (assoc "access_token" kv)
  | Raise _ => bearer_token (self st') = bearer_token (self st)
  end.
Proof.
  intros req out st'. subst out st'. rewrite get_bearer_token_cases. fold req.
  destruct (answer (provider (http_count (log st)) req)) as [r|msg] eqn:Ea;
    [|now repeat split].
  destruct (raise_for_status r) as [[]|] eqn:Es; simpl; [|now repeat split].
  unfold response_json.
  destruct (json_body r) as [j|] eqn:Ej; simpl; [|now repeat split].
  destruct j as [ | | | | | kv]; simpl; try (now repeat split).
  repeat split. exists r, kv. apply raise_for_status_ok in Es. now repeat split.
Qed.

Lemma get_bearer_token_raise (st : State) (e : exn) :
  fst (get_bearer_token provider st) = Raise e ->
  snd (get_bearer_token provider st)
  = after_send provider
      (token_request (api_key (self st)) (api_secret (self st))) st.
Proof.
  rewrite get_bearer_token_cases.
  destruct (answer _) as [r|msg]; [|reflexivity].
  destruct (rbind (raise_for_status r) _); [discriminate | reflexivity].
Qed.

Lemma prelude_fetched (st st0 : State) (token : json) :
  truthy (bearer_token (self st)) = false ->
  get_bearer_token provider st = (Ok token, st0) ->
  exists (st1 : State) (pre : list Event),
    (ensure_token provider ;;; throttle)%M st = (Ok tt, st1) /\
    same_config st0 st1 /\ log st1 = log st0 ++ pre /\
    Forall (fun e => is_sleep e = true) pre.
Proof.
  intros Ht Hg. unfold mbind at 1. unfold ensure_token, mbind at 1, get_state.
  rewrite Ht. simpl. unfold mbind at 1, mret. rewrite Hg.
  apply throttle_spec.
Qed.

Lemma search_after_fetch q m mr (st : State) (r : Response)
    (kv : list (string * json)) out st' :
  truthy (bearer_token (self st)) = false ->
  answer (provider (http_count (log st))
            (token_request (api_key (self st)) (api_secret (self st))))
  = Responded r ->
  error_status (status_code r) = false ->
  json_body r = Some (JDict kv) ->
  search_tweets provider iso q m mr st = Some (out, st') ->
  bearer_token (self st') = or_null (assoc "access_token" kv) /\
  exists rest : list Event,
    log st'
    = log st
        ++ EHttp (token_request (api_key (self st)) (api_secret (self st)))
        :: rest /\
    Forall (search_or_sleep
              (search_request (or_null (assoc "access_token" kv)) q m)) rest.
Proof.
  intros Ht Ha Hs Hj H.
  pose proof (get_bearer_token_success st r kv Ha Hs Hj) as Hg.
  assert (bearer_token (self st') = or_null (assoc "access_token" kv)) as Hb.
  { unfold search_tweets in H.
    destruct (prelude_fetched st _ _ Ht Hg) as (st1 & pre & Hp & Hc & _).
    rewrite Hp in H. apply search_loop_log in H as (Hc' & _).
    destruct Hc as (_ & _ & Hc & _). destruct Hc' as (_ & _ & Hc' & _).
    now rewrite Hc', Hc. }
  split; [exact Hb|].
  apply search_tweets_log in H as (rest & Hl & Hr & _).
  exists rest. unfold token_events in Hl. rewrite Ht in Hl.
  split; [exact Hl|]. now rewrite <- Hb.
Qed.

(** A search that finds no truthy token and whose token request fails
    ends with the error of the token request; its only event is that
    request, so no search request is sent, and the client is as before. *)
Theorem search_stops_when_token_fetch_fails q m mr (st : State) (e : exn) :
  truthy (bearer_token (self st)) = false ->
  fst (get_bearer_token provider st) = Raise e ->
  exists st' : State,
    search_tweets provider iso q m mr st = Some (Raise e, st') /\
    log st'
    = log st ++ [EHttp (token_request (api_key (self st)) (api_secret (self st)))] /\
    self st' = self st.
Proof.
  intros Ht He. pose proof (get_bearer_token_raise st e He) as Hs.
  unfold search_tweets. unfold mbind at 1.
  unfold ensure_token, mbind at 1, get_state. rewrite Ht. simpl.
  unfold mbind at 1.
  destruct (get_bearer_token provider st) as [out st0]. simpl in He, Hs.
  subst out st0. eexists. split; [reflexivity|]. now split.
Qed.

(** A search that finds no truthy token and gets a token response with no
    error status and an object as body goes on with the [access_token]
    entry of that object: the token request is its first event, every
    other request is the search request with that token, and the token is
    stored.  An object without the entry is no error: the token is [None]
    and the search requests carry the header "Bearer None". *)
Theorem search_uses_fetched_token q m mr (st : State) (r : Response)
    (kv : list (string * json)) out st' :
  truthy (bearer_token (self st)) = false ->
  answer (provider (http_count (log st))
            (token_request (api_key (self st)) (api_secret (self st))))
  = Responded r ->
  error_status (status_code r) = false ->
  json_body r = Some (JDict kv) ->
  search_tweets provider iso q m mr st = Some (out, st') ->
  let token := or_null (assoc "access_token" kv) in
  bearer_token (self st') = token /\
  (exists rest : list Event,
     log st'
     = log st
         ++ EHttp (token_request (api_key (self st)) (api_secret (self st)))
         :: rest /\
     Forall (search_or_sleep (search_request token q m)) rest) /\
  (assoc "access_token" kv = None ->
   req_headers (search_request token q m) = [("Authorization", "Bearer None")]).
Proof.
  intros Ht Ha Hs Hj H token.
  destruct (search_after_fetch q m mr st r kv out st' Ht Ha Hs Hj H) as [Hb Hl].
  split; [exact Hb|]. split; [exact Hl|].
  intros Hn. unfold token. now rewrite Hn.
Qed.

(** Two searches in a row on one client request the token once: when the
    first finds no token and the token response carries a truthy
    [access_token], the events of both searches together are the token
    request followed by GET requests and sleeps only. *)
Theorem token_requested_once_for_two_searches q m mr q2 m2 mr2 (st : State)
    (r : Response) (kv : list (string * json)) out1 st1 out2 st2 :
  truthy (bearer_token (self st)) = false ->
  answer (provider (http_count (log st))
            (token_request (api_key (self st)) (api_secret (self st))))
  = Responded r ->
  error_status (status_code r) = false ->
  json_body r = Some (JDict kv) ->
  truthy (or_null (assoc "access_token" kv)) = true ->
  search_tweets provider iso q m mr st = Some (out1, st1) ->
  search_tweets provider iso q2 m2 mr2 st1 = Some (out2, st2) ->
  exists rest : list Event,
    log st2
    = log st
        ++ EHttp (token_request (api_key (self st)) (api_secret (self st)))
        :: rest /\
    Forall get_or_sleep rest /\
    bearer_token (self st2) = or_null (assoc "access_token" kv).
Proof.
  intros Ht Ha Hs Hj Htok H1 H2.
  destruct (search_after_fetch q m mr st r kv out1 st1 Ht Ha Hs Hj H1)
    as (Hb & rest1 & Hl1 & Hr1).
  apply search_tweets_log in H2 as (rest2 & Hl2 & Hr2 & Hc).
  rewrite <- Hb in Htok. specialize (Hc Htok).
  unfold token_events in Hl2. rewrite Htok in Hl2. simpl in Hl2.
  assert (forall req l, Forall (search_or_sleep req) l -> method req = "GET" ->
                        Forall get_or_sleep l) as Hg.
  { intros req l Hf Hm. eapply Forall_impl; [|exact Hf].
    intros e [-> | He]; [exact Hm | now destruct e]. }
  exists (rest1 ++ rest2). rewrite Hl2, Hl1, <- app_assoc. simpl.
  split; [reflexivity|]. split.
  - apply Forall_app. split; eapply Hg; eauto.
  - destruct Hc as (_ & _ & Hc & _). now rewrite Hc.
Qed.

(** ** Spacing and the recorded time *)

Lemma throttle_cases (st : State) :
  exists st' : State,
    throttle st = (Ok tt, st') /\ self st' = self st /\
    ((log st' = log st /\ clock st' = clock st) \/
     exists d : Z,
       0 < d /\ log st' = log st ++ [ESleep d] /\ clock st' = clock st + d) /\
    clock st'
    = match last_request_time (self st) with
      | Some t =>
          if t =? 0 then clock st
          else Z.max (clock st) (t + min_request_interval (self st))
      | None => clock st
      end.
Proof.
  unfold throttle, mbind, get_state, mret.
  destruct (last_request_time (self st)) as [t|];
    [|exists st; repeat split; now left].
  destruct (t =? 0); [exists st; repeat split; now left|].
  destruct (clock st - t <? min_request_interval (self st)) eqn:E.
  - apply Z.ltb_lt in E. unfold sleep.
    destruct (min_request_interval (self st) - (clock st - t) <? 0) eqn:E';
      [apply Z.ltb_lt in E'; lia|].
    eexists. split; [reflexivity|]. simpl. split; [reflexivity|]. split.
    + right. exists (min_request_interval (self st) - (clock st - t)).
      split; [lia|]. now split.
    + lia.
  - apply Z.ltb_ge in E. exists st. repeat split; [now left | lia].
Qed.

(** The spacing of lines 121-127 never raises and leaves the client as it
    is.  A client with no recorded request (or one recorded at clock 0)
    is not delayed.  Otherwise the search starts at the later of the
    current clock and the recorded time plus [min_request_interval]; one
    sleep of exactly the difference is logged when that is later. *)
Theorem throttle_waits_out_interval (st : State) :
  exists st' : State,
    throttle st = (Ok tt, st') /\ self st' = self st /\
    clock st'
    = match last_request_time (self st) with
      | Some t =>
          if t =? 0 then clock st
          else Z.max (clock st) (t + min_request_interval (self st))
      | None => clock st
      end /\
    log st'
    = log st ++ (if clock st <? clock st' then [ESleep (clock st' - clock st)]
                 else []).
Proof.
  destruct (throttle_cases st) as (st' & Ht & Hs & Hl & Hc).
  exists st'. split; [exact Ht|]. split; [exact Hs|]. split; [exact Hc|].
  destruct Hl as [[Hl Hk] | (d & Hd & Hl & Hk)]; rewrite Hk.
  - rewrite Z.ltb_irrefl, app_nil_r. exact Hl.
  - destruct (clock st <? clock st + d) eqn:E; [|apply Z.ltb_ge in E; lia].
    rewrite Hl. do 3 f_equal. lia.
Qed.

Lemma search_loop_stamps q mr req :
  forall (fuel : nat) (rc : Z) (st : State) res st',
    search_loop provider iso fuel q mr req rc st = Some (Ok res, st') ->
    last_request_time (self st') = Some (clock st').
Proof.
  induction fuel as [|fuel IH]; intros rc st res st'; simpl;
    destruct (rc <=? mr); try discriminate.
  destruct (attempt provider iso q mr req rc st) as [[[[|res1]|e] rc1] st1] eqn:Ea.
  - apply IH.
  - intros H. injection H as <- <-.
    now apply attempt_return in Ea as (r & data & _ & _ & _ & _ & _ & ->).
  - discriminate.
Qed.

(** When a search returns a result, the time recorded in the client is the
    clock at which the call ends: the arrival of the last response. *)
Theorem search_return_stamps_time q m mr (st : State) res st' :
  search_tweets provider iso q m mr st = Some (Ok res, st') ->
  last_request_time (self st') = Some (clock st').
Proof.
  unfold search_tweets.
  destruct ((ensure_token provider ;;; throttle)%M st) as [[[]|e] st1];
    [|discriminate].
  apply search_loop_stamps.
Qed.

(** A search started right after a search that returned, with the token in
    hand, begins by sleeping the whole [min_request_interval]. *)
Theorem back_to_back_searches_are_spaced q m mr q2 m2 mr2 (st : State)
    res st1 out2 st2 :
  search_tweets provider iso q m mr st = Some (Ok res, st1) ->
  truthy (bearer_token (self st1)) = true ->
  clock st1 <> 0 ->
  0 < min_request_interval (self st1) ->
  search_tweets provider iso q2 m2 mr2 st1 = Some (out2, st2) ->
  exists rest : list Event,
    log st2 = log st1 ++ ESleep (min_request_interval (self st1)) :: rest /\
    Forall get_or_sleep rest.
Proof.
  intros H1 Ht Hc Hm H2.
  assert (last_request_time (self st1) = Some (clock st1)) as Hl.
  { unfold search_tweets in H1.
    destruct ((ensure_token provider ;;; throttle)%M st) as [[[]|e] st0];
      [|discriminate].
    now apply search_loop_stamps in H1. }
  unfold search_tweets in H2. unfold mbind at 1 in H2.
  unfold ensure_token, mbind at 1, get_state in H2. rewrite Ht in H2.
  simpl in H2. unfold mret in H2.
  destruct (throttle_cases st1) as (st1' & Hth & Hs & Hlog & Hclock).
  rewrite Hth in H2. rewrite Hl in Hclock.
  apply Z.eqb_neq in Hc. rewrite Hc in Hclock.
  destruct Hlog as [[_ Hk] | (d & Hd & Hlog & Hk)]; [lia|].
  assert (d = min_request_interval (self st1)) as -> by lia.
  apply search_loop_log in H2 as (_ & evs & Hl2 & He).
  exists evs. rewrite Hl2, Hlog, <- app_assoc. split; [reflexivity|].
  eapply Forall_impl; [|exact He].
  intros e [-> | He']; [reflexivity | now destruct e].
Qed.

(** ** How many requests, and when another one is sent *)

Lemma sleep_count_app (l1 l2 : list Event) :
  sleep_count (l1 ++ l2) = (sleep_count l1 + sleep_count l2)%nat.
Proof. unfold sleep_count. now rewrite filter_app, length_app. Qed.

(** What one pass adds to the log, and what made it go on. *)
Lemma attempt_events q mr req rc st out rc' st' :
  attempt provider iso q mr req rc st = (out, rc', st') ->
  (log st' = log st ++ [EHttp req] \/
   exists w : Z, log st' = log st ++ [EHttp req; ESleep w] /\ rc + 1 <= mr) /\
  (out = Ok Continue ->
   exists r : Response,
     answer (provider (http_count (log st)) req) = Responded r /\
     status_code r = 429).
Proof.
  destruct (answer (provider (http_count (log st)) req)) as [r|msg] eqn:Ea.
  - destruct (Z.eq_dec (status_code r) 429) as [Es|Es].
    + destruct (Z_lt_le_dec mr (rc + 1)) as [Hrc|Hrc].
      * rewrite (attempt_429_exhausted provider iso q mr req rc st r Ea Es Hrc).
        intros H. injection H as <- <- <-. split; [now left | now exists r].
      * destruct (wait_seconds (rate_limit_wait (self st)) r (rc + 1)
                    (clock (after_send provider req st))) as [w|e] eqn:Ew.
        -- rewrite (attempt_429_wait provider iso q mr req rc st r w Ea Es Hrc Ew).
           intros H. injection H as <- <- <-. split; [|now exists r].
           right. exists w. split; [|exact Hrc].
           now rewrite slept_log, stamped_log, <- app_assoc.
        -- rewrite (attempt_429_raise provider iso q mr req rc st r e Ea Es Hrc Ew).
           intros H. injection H as <- <- <-. split; [now left | discriminate].
    + rewrite (attempt_other provider iso q mr req rc st r Ea Es).
      intros H. injection H as <- <- <-. split; [now left|].
      intros Hc. apply handle_response_ok in Hc as (data & res & Hc & _).
      discriminate Hc.
  - rewrite (attempt_failed provider iso q mr req rc st msg Ea).
    intros H. injection H as <- <- <-. split; [now left | discriminate].
Qed.

Lemma attempt_counts q mr req rc st out rc' st' :
  attempt provider iso q mr req rc st = (out, rc', st') ->
  http_count (log st') = S (http_count (log st)) /\
  (sleep_count (log st') = sleep_count (log st) \/
   sleep_count (log st') = S (sleep_count (log st)) /\ rc + 1 <= mr).
Proof.
  intros H. apply attempt_events in H as [[Hl | (w & Hl & Hrc)] _]; rewrite Hl.
  - rewrite http_count_app, sleep_count_app.
    change (http_count [EHttp req]) with 1%nat.
    change (sleep_count [EHttp req]) with 0%nat. split; [lia | left; lia].
  - rewrite http_count_app, sleep_count_app.
    change (http_count [EHttp req; ESleep w]) with 1%nat.
    change (sleep_count [EHttp req; ESleep w]) with 1%nat.
    split; [lia | right; split; [lia | exact Hrc]].
Qed.

Lemma search_loop_counts q mr req :
  forall (fuel : nat) (rc : Z) (st : State) out st',
    search_loop provider iso fuel q mr req rc st = Some (out, st') ->
    (http_count (log st') <= http_count (log st) + Z.to_nat (mr + 1 - rc))%nat /\
    (sleep_count (log st') <= sleep_count (log st) + Z.to_nat (mr - rc))%nat.
Proof.
  induction fuel as [|fuel IH]; intros rc st out st'; simpl;
    destruct (rc <=? mr) eqn:E; try discriminate.
  1,3: intros H; injection H as <- <-; lia.
  apply Z.leb_le in E.
  destruct (attempt provider iso q mr req rc st) as [[[[|res]|e] rc1] st1] eqn:Ea;
    pose proof (attempt_counts _ _ _ _ _ _ _ _ Ea) as [Hh Hs].
  - apply attempt_continue in Ea. subst rc1.
    intros H. apply IH in H as [Hh' Hs']. rewrite Hh in Hh'.
    split; [lia|]. destruct Hs as [Hs | [Hs Hrc]]; rewrite Hs in Hs'; lia.
  - intros H. injection H as <- <-. rewrite Hh.
    split; [lia|]. destruct Hs as [Hs | [Hs Hrc]]; rewrite Hs; lia.
  - intros H. injection H as <- <-. rewrite Hh.
    split; [lia|]. destruct Hs as [Hs | [Hs Hrc]]; rewrite Hs; lia.
Qed.

Lemma search_loop_retries_on_429 q mr req :
  forall (fuel : nat) (rc : Z) (st : State) out st',
    search_loop provider iso fuel q mr req rc st = Some (out, st') ->
    forall i : nat,
      (http_count (log st) <= i)%nat -> (S i < http_count (log st'))%nat ->
      exists r : Response,
        answer (provider i req) = Responded r /\ status_code r = 429.
Proof.
  induction fuel as [|fuel IH]; intros rc st out st'; simpl;
    destruct (rc <=? mr) eqn:E; try discriminate.
  1,3: intros H; injection H as <- <-; intros; lia.
  destruct (attempt provider iso q mr req rc st) as [[[[|res]|e] rc1] st1] eqn:Ea;
    pose proof (attempt_counts _ _ _ _ _ _ _ _ Ea) as [Hh _].
  - apply attempt_events in Ea as [_ Hc]. destruct (Hc eq_refl) as (r & Ha & Hs).
    intros H i Hi Hi'.
    destruct (Nat.eq_dec i (http_count (log st))) as [-> | Hne];
      [now exists r|].
    apply (IH _ _ _ _ H i); [rewrite Hh; lia | exact Hi'].
  - intros H. injection H as <- <-. intros i Hi Hi'. lia.
  - intros H. injection H as <- <-. intros i Hi Hi'. lia.
Qed.

Lemma prelude_counts (st : State) out st1 :
  (ensure_token provider ;;; throttle)%M st = (out, st1) ->
  http_count (log st1)
  = (http_count (log st) + List.length (token_events st))%nat /\
  (sleep_count (log st1) <= sleep_count (log st) + 1)%nat.
Proof.
  intros Ep. unfold token_events.
  destruct (truthy (bearer_token (self st))) eqn:Ht.
  - unfold mbind at 1 in Ep.
    unfold ensure_token, mbind at 1, get_state, mret in Ep.
    rewrite Ht in Ep. simpl in Ep.
    destruct (throttle_cases st) as (st1' & Hth & _ & Hl & _).
    rewrite Hth in Ep. injection Ep as <- <-.
    destruct Hl as [[Hl _] | (d & _ & Hl & _)]; rewrite Hl.
    + simpl. lia.
    + rewrite http_count_app, sleep_count_app.
      change (http_count [ESleep d]) with 0%nat.
      change (sleep_count [ESleep d]) with 1%nat. simpl. lia.
  - unfold mbind at 1 in Ep.
    unfold ensure_token, mbind at 1, get_state in Ep.
    rewrite Ht in Ep. simpl in Ep. unfold mbind at 1, mret in Ep.
    pose proof (get_bearer_token_log provider st) as Hg.
    assert (forall l : list Event,
              http_count (l ++ [EHttp (token_request (api_key (self st))
                                         (api_secret (self st)))])
              = (http_count l + 1)%nat /\
              sleep_count (l ++ [EHttp (token_request (api_key (self st))
                                          (api_secret (self st)))])
              = sleep_count l) as Hpost.
    { intros l. unfold http_count, sleep_count.
      rewrite !filter_app, !length_app. simpl. split; lia. }
    destruct (get_bearer_token provider st) as [[tok|e0] st0]; simpl in Hg.
    + destruct (throttle_cases st0) as (st1' & Hth & _ & Hl & _).
      rewrite Hth in Ep. injection Ep as <- <-.
      destruct (Hpost (log st)) as [Hp1 Hp2].
      destruct Hl as [[Hl _] | (d & _ & Hl & _)]; rewrite Hl.
      * rewrite Hg, Hp1, Hp2. simpl. lia.
      * rewrite http_count_app, sleep_count_app, Hg, Hp1, Hp2.
        change (http_count [ESleep d]) with 0%nat.
        change (sleep_count [ESleep d]) with 1%nat. simpl. lia.
    + injection Ep as <- <-. destruct (Hpost (log st)) as [Hp1 Hp2].
      rewrite Hg, Hp1, Hp2. simpl. lia.
Qed.

Lemma search_tweets_counts q m mr (st : State) out st' :
  search_tweets provider iso q m mr st = Some (out, st') ->
  (http_count (log st')
   <= http_count (log st) + List.length (token_events st) + Z.to_nat (mr + 1))%nat /\
  (sleep_count (log st') <= sleep_count (log st) + 1 + Z.to_nat mr)%nat.
Proof.
  unfold search_tweets.
  destruct ((ensure_token provider ;;; throttle)%M st) as [[[]|e] st1] eqn:Ep;
    apply prelude_counts in Ep as [Hh1 Hs1].
  - intros H. apply search_loop_counts in H as [Hh Hs].
    replace (mr + 1 - 0) with (mr + 1) in Hh by lia.
    replace (mr - 0) with mr in Hs by lia. lia.
  - intros H. injection H as <- <-. lia.
Qed.

(** A search makes at most [max_retries + 1] requests besides the token
    request, and sleeps at most [max_retries] times besides the spacing
    sleep, whatever the provider answers. *)
Theorem search_requests_are_bounded q m mr (st : State) out st' :
  search_tweets provider iso q m mr st = Some (out, st') ->
  (http_count (log st')
   <= http_count (log st) + List.length (token_events st) + Z.to_nat (mr + 1))%nat /\
  (sleep_count (log st') <= sleep_count (log st) + 1 + Z.to_nat mr)%nat.
Proof.
  apply search_tweets_counts.
Qed.

(** A search sends another request only after a 429: with the token in
    hand, every request of a search but the last was answered with status
    429. *)
Theorem search_retries_only_on_429 q m mr (st : State) out st' (i : nat) :
  truthy (bearer_token (self st)) = true ->
  search_tweets provider iso q m mr st = Some (out, st') ->
  (http_count (log st) <= i)%nat ->
  (S i < http_count (log st'))%nat ->
  exists r : Response,
    answer (provider i (search_request (bearer_token (self st)) q m))
    = Responded r /\
    status_code r = 429.
Proof.
  intros Ht H Hi Hi'. unfold search_tweets in H.
  destruct (prelude_cached provider st Ht) as (st1 & pre & Hp & Hc & Hl & Hs).
  rewrite Hp in H.
  assert (bearer_token (self st1) = bearer_token (self st)) as Hb by apply Hc.
  rewrite Hb in H.
  apply (search_loop_retries_on_429 _ _ _ _ _ _ _ _ H i); [|exact Hi'].
  rewrite Hl, http_count_sleeps; [exact Hi | exact Hs].
Qed.

(** With a negative [max_retries] and the token in hand, a search sends no
    request at all and ends in the rate-limit error of line 218. *)
Theorem negative_max_retries_sends_nothing q m mr (st : State) :
  mr < 0 ->
  truthy (bearer_token (self st)) = true ->
  exists st' : State,
    search_tweets provider iso q m mr st = Some (Raise (RateLimitExceeded mr), st') /\
    http_count (log st') = http_count (log st).
Proof.
  intros Hmr Ht. unfold search_tweets.
  destruct (prelude_cached provider st Ht) as (st1 & pre & -> & _ & Hl & Hs).
  exists st1. split.
  - destruct (Z.to_nat (mr + 1)); simpl;
      (destruct (0 <=? mr) eqn:E; [apply Z.leb_le in E; lia | reflexivity]).
  - rewrite Hl. now apply http_count_sleeps.
Qed.

(** ** The first response *)

Lemma search_first_attempt q m mr (st : State) :
  truthy (bearer_token (self st)) = true ->
  0 <= mr ->
  exists (st1 : State) (pre : list Event),
    self st1 = self st /\ log st1 = log st ++ pre /\
    Forall (fun e => is_sleep e = true) pre /\
    http_count (log st1) = http_count (log st) /\
    search_tweets provider iso q m mr st
    = match attempt provider iso q mr
              (search_request (bearer_token (self st)) q m) 0 st1 with
      | (Ok Continue, rc, st') =>
          search_loop provider iso (Z.to_nat mr) q mr
            (search_request (bearer_token (self st)) q m) rc st'
      | (Ok (Return r), _, st') => Some (Ok r, st')
      | (Raise e, _, st') => Some (Raise e, st')
      end.
Proof.
  intros Ht Hmr. unfold search_tweets. unfold mbind at 1.
  unfold ensure_token, mbind at 1, get_state, mret. rewrite Ht. simpl.
  destruct (throttle_cases st) as (st1 & Hth & Hs & Hl & _). rewrite Hth.
  assert (exists pre, log st1 = log st ++ pre /\
                      Forall (fun e => is_sleep e = true) pre) as (pre & Hp & Hf).
  { destruct Hl as [[Hl _] | (d & _ & Hl & _)].
    - exists []. rewrite app_nil_r. now split.
    - exists [ESleep d]. split; [exact Hl | now repeat constructor]. }
  exists st1, pre. split; [exact Hs|]. split; [exact Hp|]. split; [exact Hf|].
  split; [rewrite Hp; now apply http_count_sleeps|].
  rewrite Hs. replace (Z.to_nat (mr + 1)) with (S (Z.to_nat mr)) by lia.
  simpl. destruct (0 <=? mr) eqn:E; [reflexivity | apply Z.leb_gt in E; lia].
Qed.

(** With the token in hand and a retry budget that is not negative, a
    first response with an error status other than 429 ends the search in
    an [HTTPError] that carries the response: one request, no retry and
    no sleep after it. *)
Theorem http_error_is_not_retried q m mr (st : State) (r : Response) :
  truthy (bearer_token (self st)) = true ->
  0 <= mr ->
  answer (provider (http_count (log st))
            (search_request (bearer_token (self st)) q m)) = Responded r ->
  error_status (status_code r) = true ->
  status_code r <> 429 ->
  exists (msg : string) (st' : State) (pre : list Event),
    search_tweets provider iso q m mr st
    = Some (Raise (HTTPError msg (Some r)), st') /\
    log st' = log st ++ pre ++ [EHttp (search_request (bearer_token (self st)) q m)] /\
    Forall (fun e => is_sleep e = true) pre.
Proof.
  intros Ht Hmr Ha He Hs.
  destruct (search_first_attempt q m mr st Ht Hmr)
    as (st1 & pre & Hself & Hl & Hp & Hh & ->).
  rewrite <- Hh in Ha.
  rewrite (attempt_other provider iso q mr _ 0 st1 r Ha Hs).
  unfold handle_response, raise_for_status. unfold error_status in He.
  destruct ((400 <=? status_code r) && (status_code r <? 500))%bool eqn:E4; simpl.
  - eexists. eexists. exists pre. split; [reflexivity|].
    rewrite stamped_log, Hl, <- app_assoc. now split.
  - assert (((500 <=? status_code r) && (status_code r <? 600))%bool = true) as ->.
    { apply andb_prop in He as [H1 H2]. apply Z.leb_le in H1. apply Z.ltb_lt in H2.
      apply andb_false_iff in E4 as [E4 | E4];
        [apply Z.leb_gt in E4; lia|apply Z.ltb_ge in E4].
      apply andb_true_intro. split; [apply Z.leb_le | apply Z.ltb_lt]; lia. }
    simpl. eexists. eexists. exists pre. split; [reflexivity|].
    rewrite stamped_log, Hl, <- app_assoc. now split.
Qed.

(** With the token in hand and a retry budget that is not negative, a
    transport failure of the first request ends the search in the
    [RequestException]: one request, no retry, and the recorded time of
    the client is not touched. *)
Theorem transport_failure_is_not_retried q m mr (st : State) (msg : string) :
  truthy (bearer_token (self st)) = true ->
  0 <= mr ->
  answer (provider (http_count (log st))
            (search_request (bearer_token (self st)) q m)) = Failed msg ->
  exists (st' : State) (pre : list Event),
    search_tweets provider iso q m mr st
    = Some (Raise (RequestException msg), st') /\
    log st' = log st ++ pre ++ [EHttp (search_request (bearer_token (self st)) q m)] /\
    Forall (fun e => is_sleep e = true) pre /\
    self st' = self st.
Proof.
  intros Ht Hmr Ha.
  destruct (search_first_attempt q m mr st Ht Hmr)
    as (st1 & pre & Hself & Hl & Hp & Hh & ->).
  rewrite <- Hh in Ha.
  rewrite (attempt_failed provider iso q mr _ 0 st1 msg Ha).
  eexists. exists pre. split; [reflexivity|]. simpl.
  rewrite Hl, <- app_assoc. now repeat split.
Qed.



(** ** The time slept when the retries run out *)





(** ** A response that is not a 429, after some that were *)


(** ** The records of a payload *)

(** A search that returns hands back every tweet of the response: the
    number of tweets, and [totalResults], is the length of the [data]
    list of the last response. *)
Theorem search_returns_every_tweet q m mr (st : State) res st' :
  search_tweets provider iso q m mr st = Some (Ok res, st') ->
  exists (r : Response) (data : json),
    answer (provider (pred (http_count (log st')))
              (search_request (bearer_token (self st')) q m)) = Responded r /\
    json_body r = Some data /\
    List.length (tweets res) = List.length (raw_tweets data) /\
    totalResults res = Z.of_nat (List.length (raw_tweets data)).
Proof.
  intros H. apply search_tweets_return in H as (r & data & Ha & Hj & Hb).
  apply build_result_spec in Hb as (_ & Hn & ud & processed & Hf & Hs).
  exists r, data. split; [exact Ha|]. split; [exact Hj|].
  assert (List.length (tweets res) = List.length (raw_tweets data)) as Hlen.
  { apply sort_by_views_perm in Hs. apply Permutation_length in Hs.
    apply Forall2_length in Hf. congruence. }
  split; [exact Hlen|]. now rewrite Hn, Hlen.
Qed.

(** The processing makes one record per raw tweet, in the order of the
    payload, and copies [id] and [text] ([None] for a missing one). *)
Theorem records_follow_payload now (data : json) (recs : list Tweet.t) :
  _process_response iso now data = Ok recs ->
  List.length recs = List.length (raw_tweets data) /\
  map Tweet.id recs = map (fun raw => or_null (field "id" raw)) (raw_tweets data) /\
  map Tweet.text recs
  = map (fun raw => or_null (field "text" raw)) (raw_tweets data).
Proof.
  intros Hp. apply process_response_spec in Hp as (ud & _ & Hf).
  induction Hf as [|raw rec raws recs Hr Hf IH]; [now repeat split|].
  destruct IH as (IH1 & IH2 & IH3).
  apply format_tweet_inv in Hr as (key & akv & _ & _ & _ & ->). simpl.
  now rewrite IH1, IH2, IH3.
Qed.

Lemma find_snoc {A} (p : A -> bool) (l : list A) (u : A) :
  find p (l ++ [u])
  = match find p l with
    | Some x => Some x
    | None => if p u then Some u else None
    end.
Proof.
  induction l as [|x l IH]; simpl; [reflexivity|].
  now destruct (p x).
Qed.

Lemma users_dict_resolves (tweet : json) (key : pykey) :
  hashable (or_null (field "author_id" tweet)) = Ok key ->
  forall (users : list json) (acc d : pydict),
    foldM add_user users acc = Ok d ->
    dict_lookup key d
    = match resolved_author tweet users with
      | Some u => Some u
      | None => dict_lookup key acc
      end.
Proof.
  intros Hk. unfold resolved_author.
  induction users as [|u users IH]; simpl; intros acc d Hd.
  - now injection Hd as <-.
  - destruct (add_user acc u) as [acc'|] eqn:Eu; simpl in Hd; try discriminate.
    rewrite (IH acc' d Hd), find_snoc.
    destruct (find (author_matches tweet) (rev users)); [reflexivity|].
    apply add_user_inv in Eu as (kv & uid & ku & -> & Hid & Hku & ->).
    rewrite dict_lookup_set. unfold author_matches. rewrite Hk. simpl.
    rewrite Hid, Hku. now destruct (pykey_eqb key ku).
Qed.

(** The author of a tweet is the last included user whose [id] is the
    tweet's [author_id]: the record takes [author], the handle and
    [verified] from that user record, with "Unknown", "unknown" and false
    for entries it lacks, and the URL takes its [username], with "i" when
    it has none. *)
Theorem author_is_last_matching_user now (data : json) (recs : list Tweet.t) :
  _process_response iso now data = Ok recs ->
  Forall2
    (fun raw rec =>
       forall user : json,
         resolved_author raw (raw_users data) = Some user ->
         Tweet.author rec = or_default (JStr "Unknown") (field "name" user) /\
         Tweet.username rec
         = ("@" ++ py_str (or_default (JStr "unknown") (field "username" user)))%string /\
         Tweet.verified rec = or_default (JBool false) (field "verified" user) /\
         Tweet.url rec
         = ("https://twitter.com/"
              ++ py_str (or_default (JStr "i") (field "username" user))
              ++ "/status/" ++ py_str (Tweet.id rec))%string)
    (raw_tweets data) recs.
Proof.
  intros Hp. apply process_response_spec in Hp as (ud & Hud & Hf).
  eapply Forall2_impl; [|exact Hf]. clear Hf.
  intros raw rec Hrec user Hu. simpl in Hrec.
  apply format_tweet_inv in Hrec as (key & akv & _ & Hk & Ha & ->). simpl.
  rewrite (users_dict_resolves raw key Hk (raw_users data) [] ud Hud), Hu in Ha.
  simpl in Ha. subst user. simpl. now repeat split.
Qed.

(** ** The relative time *)



(** ** The rate-limit status *)





(** ** A new client *)

(** A client made by [__init__] has both credentials, neither empty, and
    no token; so the first event of its first search is the token request,
    a POST with the Basic authorization of the two credentials joined by a
    colon in base 64, and everything after it is a GET or a sleep. *)
Theorem new_client_requests_token_first (key secret : option string)
    (wait start : Z) (twitter : Client) q m mr out st' :
  __init__ key secret wait = Ok twitter ->
  search_tweets provider iso q m mr {| self := twitter; clock := start; log := [] |}
  = Some (out, st') ->
  exists (k x : string) (rest : list Event),
    key = Some k /\ secret = Some x /\ k <> EmptyString /\ x <> EmptyString /\
    rate_limit_wait twitter = wait /\
    log st' = EHttp (token_request k x) :: rest /\
    Forall get_or_sleep rest /\
    method (token_request k x) = "POST" /\
    assoc "Authorization" (req_headers (token_request k x))
    = Some ("Basic " ++ b64encode (k ++ ":" ++ x))%string.
Proof.
  unfold __init__. intros Hi H.
  destruct key as [k|]; [|discriminate]. destruct secret as [x|]; [|discriminate].
  destruct (String.eqb k EmptyString) eqn:Ek; [discriminate|].
  destruct (String.eqb x EmptyString) eqn:Ex; [discriminate|].
  simpl in Hi. injection Hi as <-.
  apply search_tweets_log in H as (rest & Hl & Hr & _).
  exists k, x, rest. apply String.eqb_neq in Ek, Ex.
  repeat split; try assumption.
  eapply Forall_impl; [|exact Hr].
  intros e [-> | He]; [reflexivity | now destruct e].
Qed.

(** ** The interactive front end *)



End Further.

(** * The further statements on sample runs *)

Lemma search_stops_when_token_fetch_fails_witness :
  exists st' : State,
    search_tweets unreachable no_iso "Python" 10 3 fresh_state
    = Some (Raise (RequestException "connection refused"), st') /\
    log st' = log fresh_state ++ [EHttp (token_request "key" "secret")] /\
    self st' = self fresh_state.
Proof.
  apply (search_stops_when_token_fetch_fails unreachable no_iso "Python" 10 3
           fresh_state (RequestException "connection refused"));
    reflexivity.
Defined.

Lemma search_uses_fetched_token_witness :
  exists (out : result SearchResult) (st' : State),
    search_tweets tokenless_provider no_iso "Python" 10 3 fresh_state
    = Some (out, st') /\
    bearer_token (self st') = JNull /\
    req_headers (search_request JNull "Python" 10)
    = [("Authorization", "Bearer None")].
Proof.
  destruct (search_tweets_total tokenless_provider no_iso "Python" 10 3 fresh_state)
    as (out & st' & H).
  destruct (search_uses_fetched_token tokenless_provider no_iso "Python" 10 3
              fresh_state (ok_response (JDict [("token_type", JStr "bearer")]))
              [("token_type", JStr "bearer")] out st'
              eq_refl eq_refl eq_refl eq_refl H)
    as (Hb & _ & Hh).
  exists out, st'. split; [exact H|]. split; [exact Hb | exact (Hh eq_refl)].
Defined.

Lemma token_requested_once_for_two_searches_witness :
  exists (out1 out2 : result SearchResult) (st1 st2 : State) (rest : list Event),
    search_tweets token_provider no_iso "Python" 10 3 fresh_state = Some (out1, st1) /\
    search_tweets token_provider no_iso "AI" 10 3 st1 = Some (out2, st2) /\
    log st2 = log fresh_state ++ EHttp (token_request "key" "secret") :: rest /\
    Forall get_or_sleep rest.
Proof.
  destruct (search_tweets_total token_provider no_iso "Python" 10 3 fresh_state)
    as (out1 & st1 & H1).
  destruct (search_tweets_total token_provider no_iso "AI" 10 3 st1)
    as (out2 & st2 & H2).
  destruct (token_requested_once_for_two_searches token_provider no_iso
              "Python" 10 3 "AI" 10 3 fresh_state
              (ok_response (JDict [("token_type", JStr "bearer");
                                   ("access_token", JStr "abc")]))
              [("token_type", JStr "bearer"); ("access_token", JStr "abc")]
              out1 st1 out2 st2 eq_refl eq_refl eq_refl eq_refl eq_refl H1 H2)
    as (rest & Hl & Hr & _).
  now exists out1, out2, st1, st2, rest.
Defined.

Lemma search_return_stamps_time_witness :
  exists (res : SearchResult) (st' : State),
    search_tweets (never_limited sample_payload) no_iso "Python" 10 3 sample_state
    = Some (Ok res, st') /\
    last_request_time (self st') = Some (clock st').
Proof.
  eexists. eexists. split; [vm_compute; reflexivity|].
  refine (search_return_stamps_time (never_limited sample_payload) no_iso
            "Python" 10 3 sample_state _ _ _).
  vm_compute. reflexivity.
Defined.

Lemma back_to_back_searches_are_spaced_witness :
  match search_tweets (never_limited no_tweets) no_iso "Python" 10 3 sample_state with
  | Some (Ok _, st1) =>
      match search_tweets (never_limited no_tweets) no_iso "AI" 10 3 st1 with
      | Some (_, st2) =>
          exists rest : list Event,
            log st2 = log st1 ++ ESleep (seconds 1) :: rest /\
            Forall get_or_sleep rest
      | None => False
      end
  | _ => False
  end.
Proof.
  destruct (search_tweets (never_limited no_tweets) no_iso "Python" 10 3
              sample_state) as [[[res|e] st1]|] eqn:H1;
    pose proof H1 as K1; vm_compute in K1; try discriminate K1.
  injection K1 as <- <-.
  destruct (search_tweets (never_limited no_tweets) no_iso "AI" 10 3 _)
    as [[out2 st2]|] eqn:H2;
    [|vm_compute in H2; discriminate H2].
  refine (back_to_back_searches_are_spaced (never_limited no_tweets) no_iso
            "Python" 10 3 "AI" 10 3 sample_state _ _ out2 st2 H1 _ _ _ H2).
  - reflexivity.
  - discriminate.
  - reflexivity.
Defined.

Lemma search_requests_are_bounded_witness :
  exists (out : result SearchResult) (st' : State),
    search_tweets always_limited no_iso "Python" 10 3 fresh_state = Some (out, st') /\
    (http_count (log st') <= 0 + 1 + 4)%nat /\
    (sleep_count (log st') <= 0 + 1 + 3)%nat.
Proof.
  destruct (search_tweets_total always_limited no_iso "Python" 10 3 fresh_state)
    as (out & st' & H).
  exists out, st'. split; [exact H|].
  exact (search_requests_are_bounded always_limited no_iso "Python" 10 3
           fresh_state out st' H).
Defined.

Lemma search_retries_only_on_429_witness :
  exists r : Response,
    answer (limited_once 0 (search_request (JStr "token") "Python" 10))
    = Responded r /\
    status_code r = 429.
Proof.
  destruct (search_tweets_total limited_once no_iso "Python" 10 3 sample_state)
    as (out & st' & H).
  refine (search_retries_only_on_429 limited_once no_iso "Python" 10 3
            sample_state out st' 0 eq_refl H _ _).
  - apply Nat.le_refl.
  - vm_compute in H. injection H as <- <-. vm_compute. apply Nat.le_refl.
Defined.

Lemma negative_max_retries_sends_nothing_witness :
  exists st' : State,
    search_tweets (never_limited sample_payload) no_iso "Python" 10 (-1)
      sample_state
    = Some (Raise (RateLimitExceeded (-1)), st') /\
    http_count (log st') = http_count (log sample_state).
Proof.
  apply (negative_max_retries_sends_nothing (never_limited sample_payload)
           no_iso "Python" 10 (-1) sample_state); reflexivity.
Defined.

Lemma http_error_is_not_retried_witness :
  exists (msg : string) (st' : State) (pre : list Event),
    search_tweets always_forbidden no_iso "Python" 10 3 sample_state
    = Some (Raise (HTTPError msg (Some forbidden)), st') /\
    log st'
    = log sample_state ++ pre
        ++ [EHttp (search_request (bearer_token (self sample_state)) "Python" 10)] /\
    Forall (fun e => is_sleep e = true) pre.
Proof.
  apply (http_error_is_not_retried always_forbidden no_iso "Python" 10 3
           sample_state forbidden); try reflexivity.
  - discriminate.
  - discriminate.
Defined.

Lemma transport_failure_is_not_retried_witness :
  exists (st' : State) (pre : list Event),
    search_tweets unreachable no_iso "Python" 10 3 sample_state
    = Some (Raise (RequestException "connection refused"), st') /\
    log st'
    = log sample_state ++ pre
        ++ [EHttp (search_request (bearer_token (self sample_state)) "Python" 10)] /\
    Forall (fun e => is_sleep e = true) pre /\
    self st' = self sample_state.
Proof.
  apply (transport_failure_is_not_retried unreachable no_iso "Python" 10 3
           sample_state "connection refused"); try reflexivity.
  discriminate.
Defined.




Lemma search_returns_every_tweet_witness :
  exists (res : SearchResult) (st' : State),
    search_tweets (never_limited sample_payload) no_iso "Python" 10 3 sample_state
    = Some (Ok res, st') /\
    totalResults res = 4.
Proof.
  eexists. eexists. split; [vm_compute; reflexivity|].
  destruct (search_returns_every_tweet (never_limited sample_payload) no_iso
              "Python" 10 3 sample_state _ _ eq_refl)
    as (r & data & Ha & Hj & _ & Ht).
  vm_compute in Ha. injection Ha as <-. injection Hj as <-. exact Ht.
Defined.

Lemma records_follow_payload_witness :
  exists recs : list Tweet.t,
    _process_response no_iso 0 sample_payload = Ok recs /\
    List.length recs = 4%nat /\
    map Tweet.id recs = [JStr "1"; JStr "2"; JStr "3"; JStr "4"].
Proof.
  eexists. split; [vm_compute; reflexivity|].
  destruct (records_follow_payload no_iso 0 sample_payload _ eq_refl)
    as (Hl & Hi & _).
  split; [exact Hl | exact Hi].
Defined.

Lemma author_is_last_matching_user_witness :
  exists rec : Tweet.t,
    _process_response no_iso 0 payload_two_anns = Ok [rec] /\
    Tweet.author rec = JStr "Ann Lee" /\
    Tweet.username rec = "@unknown" /\
    Tweet.url rec = "https://twitter.com/i/status/1".
Proof.
  eexists. split; [vm_compute; reflexivity|].
  pose proof (author_is_last_matching_user no_iso 0 payload_two_anns _ eq_refl)
    as H.
  apply Forall2_cons_iff in H as [H _].
  destruct (H (JDict [("id", JStr "u1"); ("name", JStr "Ann Lee")]) eq_refl)
    as (Ha & Hu & _ & Hl).
  split; [exact Ha|]. split; [exact Hu | exact Hl].
Defined.




Lemma new_client_requests_token_first_witness :
  exists (out : result SearchResult) (st' : State) (rest : list Event),
    search_tweets token_provider no_iso "Python" 10 3 fresh_state = Some (out, st') /\
    log st' = EHttp (token_request "key" "secret") :: rest /\
    assoc "Authorization" (req_headers (token_request "key" "secret"))
    = Some "Basic a2V5OnNlY3JldA==".
Proof.
  destruct (search_tweets_total token_provider no_iso "Python" 10 3 fresh_state)
    as (out & st' & H).
  destruct (new_client_requests_token_first token_provider no_iso
              (Some "key") (Some "secret") 60 (seconds 1700000000)
              (self fresh_state) "Python" 10 3 out st' eq_refl H)
    as (k & x & rest & Hk & Hx & _ & _ & _ & Hl & _ & _ & Ha).
  injection Hk as <-. injection Hx as <-.
  now exists out, st', rest.
Defined.

Lemma get_bearer_token_stores_or_keeps_witness :
  bearer_token (self (snd (get_bearer_token token_provider fresh_state)))
  = JStr "abc" /\
  bearer_token (self (snd (get_bearer_token unreachable sample_state)))
  = JStr "token".
Proof.
  split.
  - exact (proj1 (proj2 (proj2 (proj2 (proj2 (proj2
             (get_bearer_token_stores_or_keeps token_provider fresh_state))))))).
  - exact (proj2 (proj2 (proj2 (proj2 (proj2
             (get_bearer_token_stores_or_keeps unreachable sample_state)))))).
Defined.

Lemma throttle_waits_out_interval_witness :
  exists st' : State,
    throttle recent_state = (Ok tt, st') /\
    clock st' = seconds 1700000000 + 600000 /\
    log st' = [ESleep 600000].
Proof.
  destruct (throttle_waits_out_interval recent_state) as (st' & Ht & _ & Hc & Hl).
  assert (clock st' = seconds 1700000000 + 600000) as Hc'
    by (rewrite Hc; reflexivity).
  exists st'. split; [exact Ht|]. split; [exact Hc'|].
  rewrite Hc' in Hl. exact Hl.
Defined.



